(** * Real-time PII defense: the detection-and-redaction engine

    A shallow embedding of [detector_tharunharirajan.py] and the properties
    of its classifiers, maskers and record classifier.

    Modelling conventions.
    - A Python [str] is a [list ascii] ([str] below); literals are written
      [py "..."].  The model covers ASCII text: characters with a code of
      128 or more are carried along as plain symbols (neither digit, space
      nor letter), so the Unicode-only behaviour of [\d], [\s] and
      [str.lower] is outside the model.
    - A JSON value as [json.loads] produces it is a [json]; floating-point
      numbers are left out.
    - A Python [dict] is an association list in insertion order; a lawful
      dict has pairwise distinct keys ([NoDup (keys r)]).
    - [detectAndRedact] can raise ([AttributeError], from [text.lower()]
      on a value that is not a string), so it returns an [outcome].
    - [json.loads] is a parameter of the record adapter. *)

From Stdlib Require Import Ascii String ZArith Bool Lia Arith.
From Stdlib Require Import Numbers.DecimalString.
From Stdlib Require Import List Permutation.
Import ListNotations.

Local Open Scope list_scope.
Local Open Scope bool_scope.

(** ** Strings *)

Definition str := list ascii.

Definition py (s : string) : str := list_ascii_of_string s.

Arguments py s%_string.

Definition code (c : ascii) : nat := nat_of_ascii c.

Definition between (lo hi : nat) (c : ascii) : bool :=
  (lo <=? code c) && (code c <=? hi).

(** [\d] on ASCII text. *)
Definition is_digit (c : ascii) : bool := between 48 57 c.

Definition is_upper (c : ascii) : bool := between 65 90 c.

Definition is_lower (c : ascii) : bool := between 97 122 c.

(** [[A-Za-z]] *)
Definition is_alpha (c : ascii) : bool := is_upper c || is_lower c.

(** [\w] on ASCII text: [[A-Za-z0-9_]]. *)
Definition is_word (c : ascii) : bool :=
  is_alpha c || is_digit c || (code c =? 95).

(** [str.isspace] / [\s] on ASCII text: tab, LF, VT, FF, CR, the four
    separators 0x1c-0x1f and the space. *)
Definition is_space (c : ascii) : bool :=
  between 9 13 c || between 28 32 c.

Definition lower_char (c : ascii) : ascii :=
  if is_upper c then ascii_of_nat (code c + 32) else c.

(** [s.lower()] *)
Definition lower (s : str) : str := map lower_char s.

Definition str_eqb (a b : str) : bool :=
  if list_eq_dec ascii_dec a b then true else false.

(** [c in s] for a one-character [c]. *)
Definition contains (c : ascii) (s : str) : bool :=
  existsb (Ascii.eqb c) s.

Fixpoint lstrip (s : str) : str :=
  match s with
  | c :: t => if is_space c then lstrip t else s
  | [] => []
  end.

Definition rstrip (s : str) : str := rev (lstrip (rev s)).

(** [s.strip()] *)
Definition strip (s : str) : str := rstrip (lstrip s).

(** [re.sub(r'\D', '', s)] *)
Definition digits_of (s : str) : str := filter is_digit s.

(** [s[:n]] for [0 <= n]. *)
Definition prefix (n : nat) (s : str) : str := firstn n s.

(** [s[-n:]] for [0 < n]: the whole of [s] when it is shorter than [n]. *)
Definition suffix (n : nat) (s : str) : str := skipn (length s - n) s.

(** ['X' * n]: empty for [n <= 0]. *)
Definition xs (n : Z) : str := repeat "X"%char (Z.to_nat n).

Definition len (s : str) : Z := Z.of_nat (length s).

(** [s.split(c, 1)]: one part when [c] does not occur, else the text before
    the first [c] and the text after it. *)
Fixpoint split_once (c : ascii) (s : str) : list str :=
  match s with
  | [] => [[]]
  | a :: t =>
      if Ascii.eqb a c then [[]; t]
      else match split_once c t with
           | u :: rest => (a :: u) :: rest
           | [] => [[a]]
           end
  end.

(** [s.split(c)[0]] *)
Fixpoint before (c : ascii) (s : str) : str :=
  match s with
  | [] => []
  | a :: t => if Ascii.eqb a c then [] else a :: before c t
  end.

(** [re.split(r'\s+', s)]: the pieces between maximal runs of whitespace,
    with an empty piece where [s] starts or ends with whitespace.
    [in_ws] tells that the previous character was whitespace. *)
Fixpoint re_split_from (in_ws : bool) (s : str) : list str :=
  match s with
  | [] => [[]]
  | c :: t =>
      if is_space c then
        if in_ws then re_split_from true t else [] :: re_split_from true t
      else match re_split_from false t with
           | u :: rest => (c :: u) :: rest
           | [] => [[c]]
           end
  end.

Definition re_split_ws (s : str) : list str := re_split_from false s.

Definition nonempty (s : str) : bool :=
  match s with [] => false | _ :: _ => true end.

(** [s.split()]: the maximal runs of non-whitespace characters. *)
Definition split_ws (s : str) : list str := filter nonempty (re_split_ws s).

(** [sep.join(parts)] *)
Fixpoint join (sep : str) (parts : list str) : str :=
  match parts with
  | [] => []
  | [p] => p
  | p :: rest => p ++ sep ++ join sep rest
  end.

Fixpoint starts_with (m s : str) : bool :=
  match m, s with
  | [], _ => true
  | a :: m', b :: s' => Ascii.eqb a b && starts_with m' s'
  | _ :: _, [] => false
  end.

(** [m in s] for strings. *)
Fixpoint substring_in (m s : str) : bool :=
  starts_with m s ||
  match s with
  | [] => false
  | _ :: t => substring_in m t
  end.

(** [s.count(c)] *)
Definition count (c : ascii) (s : str) : Z :=
  Z.of_nat (List.length (filter (Ascii.eqb c) s)).

(** A match of [\d{6}\b] at the head of [s]. *)
Definition six_digits_then_boundary (s : str) : bool :=
  match s with
  | d1 :: d2 :: d3 :: d4 :: d5 :: d6 :: t =>
      is_digit d1 && is_digit d2 && is_digit d3 && is_digit d4 &&
      is_digit d5 && is_digit d6 &&
      match t with [] => true | c :: _ => negb (is_word c) end
  | _ => false
  end.

(** [re.search(r'\b\d{6}\b', s)]; [prev_word] tells that the character
    before [s] is a word character, so that no boundary starts [s]. *)
Fixpoint search_postal (prev_word : bool) (s : str) : bool :=
  (negb prev_word && six_digits_then_boundary s) ||
  match s with
  | [] => false
  | c :: t => search_postal (is_word c) t
  end.

(** ** JSON values and [json.dumps] *)

#[local] Set Warnings "-register-all".

Inductive json : Type :=
| JNull
| JBool (b : bool)
| JInt (n : Z)
| JStr (s : str)
| JList (items : list json)
| JDict (fields : list (str * json)).

Definition dquote : ascii := ascii_of_nat 34.

Definition backslash : ascii := ascii_of_nat 92.

Definition hex_digit (n : nat) : ascii :=
  if n <? 10 then ascii_of_nat (48 + n) else ascii_of_nat (87 + n).

(** One character of a string under [json.dumps] with [ensure_ascii]:
    the quote and the backslash are escaped, printable ASCII is kept,
    the five short escapes are used, the rest is [\u00xx]. *)
Definition escape_char (c : ascii) : str :=
  let n := code c in
  if n =? 34 then [backslash; dquote]
  else if n =? 92 then [backslash; backslash]
  else if (32 <=? n) && (n <=? 126) then [c]
  else if n =? 10 then py "\n"
  else if n =? 13 then py "\r"
  else if n =? 9 then py "\t"
  else if n =? 8 then py "\b"
  else if n =? 12 then py "\f"
  else py "\u00" ++ [hex_digit (n / 16); hex_digit (n mod 16)].

Definition quote (s : str) : str :=
  [dquote] ++ flat_map escape_char s ++ [dquote].

Definition dumps_int (n : Z) : str := py (NilZero.string_of_int (Z.to_int n)).

(** [json.dumps(value)] with the default separators [", "] and [": "]. *)
Fixpoint dumps (j : json) : str :=
  match j with
  | JNull => py "null"
  | JBool true => py "true"
  | JBool false => py "false"
  | JInt n => dumps_int n
  | JStr s => quote s
  | JList items => py "[" ++ join (py ", ") (map dumps items) ++ py "]"
  | JDict fields =>
      py "{" ++
      join (py ", ")
        (map (fun kv => match kv with
                        | (k, v) => quote k ++ py ": " ++ dumps v
                        end) fields) ++
      py "}"
  end.

(** Python truthiness of a JSON value. *)
Definition truthy (j : json) : bool :=
  match j with
  | JNull => false
  | JBool b => b
  | JInt n => negb (n =? 0)%Z
  | JStr s => nonempty s
  | JList items => match items with [] => false | _ => true end
  | JDict fields => match fields with [] => false | _ => true end
  end.


(** ** Value classifiers

    Every classifier is called on a [str] only, so [val or ''] is [val]. *)

Definition phoneKeys : list str :=
  [py "phone"; py "contact"; py "mobile"; py "alt_phone"; py "alt_contact"].

Definition aadharKeys : list str := [py "aadhar"; py "aadhaar"].

Definition passportKeys : list str := [py "passport"].

Definition upiKeys : list str := [py "upi_id"; py "upi"; py "vpa"].

Definition upiHandles : list str :=
  [py "upi"; py "ybl"; py "ibl"; py "paytm"; py "okhdfcbank"; py "okaxis";
   py "oksbi"; py "okicici"; py "axisbank"; py "hdfcbank"; py "sbi";
   py "icici"; py "fbl"; py "airtel"; py "apl"; py "yapl"; py "kbl";
   py "axl"].

(** [k in keys] for a set of strings. *)
Definition in_set (k : str) (keys : list str) : bool :=
  existsb (str_eqb k) keys.

Definition is10DigitPhone (val : str) : bool :=
  let digits := digits_of val in
  (len digits =? 10)%Z.

Definition isAadhar (val : str) : bool :=
  let digits := digits_of val in
  (len digits =? 12)%Z.

(** [re.fullmatch(r'[A-Za-z]\d{7,8}', s)] *)
Definition fullmatch_passport (s : str) : bool :=
  match s with
  | c :: ds =>
      is_alpha c && forallb is_digit ds &&
      ((length ds =? 7) || (length ds =? 8))
  | [] => false
  end.

Definition isPassport (val : str) : bool :=
  fullmatch_passport (strip val).

(** The class [[A-Za-z0-9.\-_]]. *)
Definition upi_user_char (c : ascii) : bool :=
  is_alpha c || is_digit c ||
  Ascii.eqb c "." || Ascii.eqb c "-" || Ascii.eqb c "_".

(** [re.fullmatch(r'[A-Za-z0-9.\-_]{2,}', s)] *)
Definition fullmatch_upi_user (s : str) : bool :=
  forallb upi_user_char s && (2 <=? length s).

Definition isUpi (val : str) : bool :=
  let v := strip val in
  if negb (contains "@" v) then false
  else
    let parts := split_once "@" v in
    match parts with
    | [user; handle] =>
        if negb (fullmatch_upi_user user) then false
        else
          let base := lower (before "." handle) in
          in_set base upiHandles
    | _ => false
    end.

(** ** Maskers *)

Definition REDACTED : str := py "[REDACTED_PII]".

Definition maskPhone (val : str) : str :=
  let digits := digits_of val in
  if negb (len digits =? 10)%Z then REDACTED
  else prefix 2 digits ++ xs 6 ++ suffix 2 digits.

Definition maskAadhar (val : str) : str :=
  let digits := digits_of val in
  if negb (len digits =? 12)%Z then REDACTED
  else py "XXXX XXXX " ++ suffix 4 digits.

(** [s[0]] as a string; [s] is not empty wherever the source indexes it. *)
Definition first_char (s : str) : str :=
  match s with
  | c :: _ => [c]
  | [] => []
  end.

Definition maskPassport (val : str) : str :=
  let v := strip val in
  if negb (isPassport v) then REDACTED
  else first_char v ++ xs (len v - 1).

(** The masked user part of a payment handle. *)
Definition maskedUser (user : str) : str :=
  if (len user <=? 4)%Z
  then prefix 1 user ++ xs (Z.max (len user - 1) 0)
  else prefix 2 user ++ xs (len user - 4) ++ suffix 2 user.

(** [user, handle = v.split('@', 1)] is reached with ['@' in v] only, where
    the split has two parts; the last branch stands for the unpacking error
    that cannot happen. *)
Definition maskUpi (val : str) : str :=
  let v := strip val in
  if negb (contains "@" v) then REDACTED
  else
    match split_once "@" v with
    | [user; handle] => maskedUser user ++ py "@" ++ handle
    | _ => REDACTED
    end.

(** One token of a name: [p[0] + 'X' * (len(p) - 1)], for [p] not empty. *)
Definition mask_token (p : str) : str := first_char p ++ xs (len p - 1).

Definition maskName (val : str) : str :=
  let parts := re_split_ws (strip val) in
  let masked := map mask_token (filter nonempty parts) in
  match masked with
  | [] => val
  | _ :: _ => join (py " ") masked
  end.

(** The masked local part of an e-mail address. *)
Definition mlocal (local : str) : str :=
  if (len local <=? 2)%Z
  then prefix 1 local ++ xs (Z.max (len local - 1) 0)
  else prefix 2 local ++ py "XXX".

Definition maskEmail (val : str) : str :=
  let v := strip val in
  if negb (contains "@" v) then REDACTED
  else
    match split_once "@" v with
    | [local; domain] => mlocal local ++ py "@" ++ domain
    | _ => REDACTED
    end.

Definition markers : list str :=
  [py "street"; py "st."; py "road"; py "rd"; py "lane"; py "ln";
   py "avenue"; py "ave"; py "block"; py "sector"; py "near"; py "opp";
   py "apartment"; py "society"; py "floor"].

(** The body of [looksLikeAddress] for a [str] argument. *)
Definition looksLikeAddress_str (text : str) : bool :=
  if negb (nonempty text) then false
  else
    let t := lower text in
    if existsb (fun m => substring_in m t) markers then true
    else if search_postal false t then true
    else (2 <=? count "," t)%Z && (10 <=? len t)%Z.

(** ** Outcomes: a value, or the exception raised *)

Inductive outcome (A : Type) : Type :=
| Ok (a : A)
| AttributeError.

Arguments Ok {A} a.
Arguments AttributeError {A}.

Definition bind {A B : Type} (m : outcome A) (f : A -> outcome B)
  : outcome B :=
  match m with
  | Ok a => f a
  | AttributeError => AttributeError
  end.

Notation "x <- m ;; k" := (bind m (fun x => k))
  (at level 61, m at next level, right associativity).

(** [looksLikeAddress] on whatever the record holds: a falsy value is
    rejected before it is used, a string is examined, and anything else
    has no [lower] method. *)
Definition looksLikeAddress (text : json) : outcome bool :=
  if negb (truthy text) then Ok false
  else
    match text with
    | JStr s => Ok (looksLikeAddress_str s)
    | _ => AttributeError
    end.

(** ** Records *)

(** A Python [dict] with string keys, in insertion order. *)
Definition dict := list (str * json).

Definition keys (r : dict) : list str := map fst r.

(** [d.get(k)], [None] when [k not in d]. *)
Fixpoint dict_get (k : str) (d : dict) : option json :=
  match d with
  | [] => None
  | (k', x) :: t => if str_eqb k k' then Some x else dict_get k t
  end.

(** [d[k] = x]: the value is replaced in place when the key is present,
    and the pair is appended otherwise. *)
Fixpoint dict_set (k : str) (x : json) (d : dict) : dict :=
  match d with
  | [] => [(k, x)]
  | (k', y) :: t =>
      if str_eqb k k' then (k', x) :: t else (k', y) :: dict_set k x t
  end.

(** ** The record classifier *)

Record scan : Type := mkScan {
  hasFullName : bool;
  hasEmail : bool;
  hasAddress : bool;
  hasDeviceOrIp : bool;
  standaloneHit : bool;
  redacted : dict
}.

(** [v = value if isinstance(value, str) else
        (json.dumps(value) if value is not None else '')] *)
Definition to_text (value : json) : str :=
  match value with
  | JStr s => s
  | JNull => []
  | _ => dumps value
  end.

Definition standalone_hit (st : scan) (key : str) (masked : str) : scan :=
  mkScan (hasFullName st) (hasEmail st) (hasAddress st) (hasDeviceOrIp st)
         true (dict_set key (JStr masked) (redacted st)).

(** One iteration of [for key, value in data.items()].  [v] is always a
    [str], so [isinstance(v, str)] holds in the two places it is tested. *)
Definition scan_field (st : scan) (item : str * json) : scan :=
  let (key, value) := item in
  let k := lower key in
  let v := to_text value in
  if in_set k phoneKeys && is10DigitPhone v then
    standalone_hit st key (maskPhone v)
  else if in_set k aadharKeys && isAadhar v then
    standalone_hit st key (maskAadhar v)
  else if in_set k passportKeys && isPassport v then
    standalone_hit st key (maskPassport v)
  else if in_set k upiKeys && isUpi v then
    standalone_hit st key (maskUpi v)
  else
    mkScan
      (if str_eqb k (py "name") && (2 <=? length (split_ws v))
       then true else hasFullName st)
      (if str_eqb k (py "email") && contains "@" v
       then true else hasEmail st)
      (if str_eqb k (py "address") && looksLikeAddress_str v
       then true else hasAddress st)
      (if in_set k [py "ip_address"; py "device_id"] && nonempty v &&
          negb (str_eqb v (py "0.0.0.0"))
       then true else hasDeviceOrIp st)
      (standaloneHit st)
      (redacted st).

Definition scan_init (data : dict) : scan :=
  mkScan false false false false false data.

Definition b2z (b : bool) : Z := if b then 1%Z else 0%Z.

(** [sum([hasFullName, hasEmail, hasAddress, hasDeviceOrIp])] *)
Definition comboHits (st : scan) : Z :=
  (b2z (hasFullName st) + b2z (hasEmail st) + b2z (hasAddress st) +
   b2z (hasDeviceOrIp st))%Z.

Definition redact_name (data red : dict) : dict :=
  match dict_get (py "name") data with
  | Some (JStr s) =>
      if 2 <=? length (split_ws s)
      then dict_set (py "name") (JStr (maskName s)) red else red
  | _ => red
  end.

Definition redact_email (data red : dict) : dict :=
  match dict_get (py "email") data with
  | Some (JStr s) =>
      if contains "@" s
      then dict_set (py "email") (JStr (maskEmail s)) red else red
  | _ => red
  end.

Definition redact_address (data red : dict) : outcome dict :=
  match dict_get (py "address") data with
  | Some a =>
      looks <- looksLikeAddress a ;;
      Ok (if (looks : bool)
          then dict_set (py "address") (JStr REDACTED) red else red)
  | None => Ok red
  end.

Definition redact_device (field : str) (data red : dict) : dict :=
  match dict_get field data with
  | Some x => if truthy x then dict_set field (JStr REDACTED) red else red
  | None => red
  end.

(** The body of [if isComboPii:]. *)
Definition redact_combo (data red : dict) : outcome dict :=
  let red := redact_name data red in
  let red := redact_email data red in
  red <- redact_address data red ;;
  let red := redact_device (py "ip_address") data red in
  let red := redact_device (py "device_id") data red in
  Ok red.

Definition detectAndRedact (record : dict) : outcome (dict * bool) :=
  let data := record in
  let st := fold_left scan_field data (scan_init data) in
  let isComboPii := (2 <=? comboHits st)%Z in
  red <- (if isComboPii then redact_combo data (redacted st)
          else Ok (redacted st)) ;;
  let is_pii := standaloneHit st || isComboPii in
  Ok (red, is_pii).

(** ** The record adapter and one row of the pipeline

    [json.loads] is not part of the repository: it is a parameter here,
    giving the parsed value or [None] when it raises. *)

Section Adapter.

Variable json_loads : str -> option json.

(** [s.replace(a, b)] for one-character [a] and [b]. *)
Definition replace_char (a b : ascii) (s : str) : str :=
  map (fun c => if Ascii.eqb c a then b else c) s.

Definition loadJsonSafe (raw : str) : json :=
  match json_loads raw with
  | Some parsed => parsed
  | None =>
      let fixed := replace_char "'" dquote raw in
      match json_loads fixed with
      | Some parsed => parsed
      | None => JDict []
      end
  end.

(** The body of the loop of [main] on one row, up to the call of the
    classifier: anything that is not a dict counts as the empty dict. *)
Definition classify_row (rawJson : str) : outcome (dict * bool) :=
  let data := loadJsonSafe rawJson in
  let data := match data with JDict d => d | _ => [] end in
  detectAndRedact data.

End Adapter.

(** ** The classifier, field by field

    The same function described one field at a time; the lemmas below show
    that on a dict (distinct keys) [detectAndRedact] computes exactly this. *)

(** The standalone branch taken for a lower-cased key [k] and text [v]. *)
Definition standalone_mask (k v : str) : option str :=
  if in_set k phoneKeys && is10DigitPhone v then Some (maskPhone v)
  else if in_set k aadharKeys && isAadhar v then Some (maskAadhar v)
  else if in_set k passportKeys && isPassport v then Some (maskPassport v)
  else if in_set k upiKeys && isUpi v then Some (maskUpi v)
  else None.

(** The lower-cased key has a standalone role. *)
Definition standalone_alias (k : str) : bool :=
  in_set k phoneKeys || in_set k aadharKeys || in_set k passportKeys ||
  in_set k upiKeys.

(** The value passes the classifier of the role of [k]. *)
Definition standalone_match (k v : str) : bool :=
  in_set k phoneKeys && is10DigitPhone v ||
  in_set k aadharKeys && isAadhar v ||
  in_set k passportKeys && isPassport v ||
  in_set k upiKeys && isUpi v.

Definition is_hit (item : str * json) : bool :=
  match standalone_mask (lower (fst item)) (to_text (snd item)) with
  | Some _ => true
  | None => false
  end.

Definition sig_name (item : str * json) : bool :=
  str_eqb (lower (fst item)) (py "name") &&
  (2 <=? length (split_ws (to_text (snd item)))).

Definition sig_email (item : str * json) : bool :=
  str_eqb (lower (fst item)) (py "email") &&
  contains "@" (to_text (snd item)).

Definition sig_address (item : str * json) : bool :=
  str_eqb (lower (fst item)) (py "address") &&
  looksLikeAddress_str (to_text (snd item)).

Definition sig_device (item : str * json) : bool :=
  in_set (lower (fst item)) [py "ip_address"; py "device_id"] &&
  nonempty (to_text (snd item)) &&
  negb (str_eqb (to_text (snd item)) (py "0.0.0.0")).

(** At least two of the four signals are active in the record. *)
Definition combo_triggered (r : dict) : bool :=
  (2 <=? b2z (existsb sig_name r) + b2z (existsb sig_email r) +
         b2z (existsb sig_address r) + b2z (existsb sig_device r))%Z.

(** The record holds an ["address"] on which [looksLikeAddress] raises. *)
Definition bad_address (r : dict) : bool :=
  match dict_get (py "address") r with
  | Some a =>
      match looksLikeAddress a with
      | Ok _ => false
      | AttributeError => true
      end
  | None => false
  end.

(** What the first pass leaves in the copy for one field. *)
Definition scan_item (item : str * json) : str * json :=
  match standalone_mask (lower (fst item)) (to_text (snd item)) with
  | Some m => (fst item, JStr m)
  | None => item
  end.

(** What the second pass writes over the value of ["name"], ["email"],
    ["address"] and of a device field; [None] when it leaves it alone. *)
Definition name_mask (value : json) : option str :=
  match value with
  | JStr s => if 2 <=? length (split_ws s) then Some (maskName s) else None
  | _ => None
  end.

Definition email_mask (value : json) : option str :=
  match value with
  | JStr s => if contains "@" s then Some (maskEmail s) else None
  | _ => None
  end.

Definition address_mask (value : json) : option str :=
  match looksLikeAddress value with
  | Ok true => Some REDACTED
  | _ => None
  end.

Definition device_mask (value : json) : option str :=
  if truthy value then Some REDACTED else None.

(** What the second pass writes for one field of the original record. *)
Definition combo_mask (item : str * json) : option str :=
  let (key, value) := item in
  if str_eqb key (py "name") then name_mask value
  else if str_eqb key (py "email") then email_mask value
  else if str_eqb key (py "address") then address_mask value
  else if str_eqb key (py "ip_address") then device_mask value
  else if str_eqb key (py "device_id") then device_mask value
  else None.

(** One conditional assignment of the second pass: the value of [k] in the
    original record decides, through [f], whether [k] is overwritten. *)
Definition layer (k : str) (f : json -> option str)
    (g : str * json -> str * json) (kv : str * json) : str * json :=
  if str_eqb (fst kv) k then
    match f (snd kv) with
    | Some m => (fst kv, JStr m)
    | None => g kv
    end
  else g kv.

(** The redacted field, [combo] telling whether the second pass runs. *)
Definition redact_item (combo : bool) (item : str * json) : str * json :=
  match standalone_mask (lower (fst item)) (to_text (snd item)) with
  | Some m => (fst item, JStr m)
  | None =>
      if combo then
        match combo_mask item with
        | Some m => (fst item, JStr m)
        | None => item
        end
      else item
  end.

(** ** Vocabulary of the proofs *)

(** No whitespace in the text. *)
Definition spacefree (s : str) : bool :=
  forallb (fun c => negb (is_space c)) s.

(** A token: not empty and without whitespace. *)
Definition token (p : str) : Prop := p <> [] /\ spacefree p = true.

(** A text that starts and ends with a character that is not whitespace. *)
Definition tight (s : str) : Prop :=
  (exists c t, s = c :: t /\ is_space c = false) /\
  (exists t d, s = t ++ [d] /\ is_space d = false).

(** * Properties *)

(** ** Characters and strings *)

Lemma str_eqb_eq (a b : str) : str_eqb a b = true <-> a = b.
Proof.
  unfold str_eqb. destruct (list_eq_dec ascii_dec a b); split; congruence.
Qed.

Lemma str_eqb_refl (a : str) : str_eqb a a = true.
Proof. now apply str_eqb_eq. Qed.

Lemma str_eqb_neq (a b : str) : str_eqb a b = false <-> a <> b.
Proof.
  unfold str_eqb. destruct (list_eq_dec ascii_dec a b); split; congruence.
Qed.

Lemma in_set_In (k : str) (l : list str) : in_set k l = true <-> In k l.
Proof.
  unfold in_set. rewrite existsb_exists. split.
  - intros [x [Hin Heq]]. apply str_eqb_eq in Heq. now subst.
  - intros Hin. exists k. split; [assumption | apply str_eqb_refl].
Qed.

(** ** Dictionaries *)

Lemma keys_app (a b : dict) : keys (a ++ b) = keys a ++ keys b.
Proof. apply map_app. Qed.

Lemma dict_get_In (k : str) (d : dict) (x : json) :
  dict_get k d = Some x -> In (k, x) d.
Proof.
  induction d as [|[k' y] t IH]; simpl; [discriminate|].
  destruct (str_eqb k k') eqn:E.
  - intros [= <-]. apply str_eqb_eq in E. subst. now left.
  - intros H. right. now apply IH.
Qed.

Lemma dict_get_key (k : str) (d : dict) (x : json) :
  dict_get k d = Some x -> In k (keys d).
Proof.
  intros H. apply dict_get_In in H. apply (in_map fst) in H. exact H.
Qed.

Lemma NoDup_dict_get (k : str) (x : json) (d : dict) :
  NoDup (keys d) -> In (k, x) d -> dict_get k d = Some x.
Proof.
  induction d as [|[k' y] t IH]; simpl; [contradiction|].
  intros Hnd Hin. inversion Hnd as [|? ? Hnotin Hnd']; subst.
  destruct Hin as [Heq | Hin].
  - injection Heq as -> ->. now rewrite str_eqb_refl.
  - destruct (str_eqb k k') eqn:E.
    + apply str_eqb_eq in E. subst k'. exfalso. apply Hnotin.
      apply (in_map fst) in Hin. exact Hin.
    + now apply IH.
Qed.

Lemma dict_set_keys (k : str) (x : json) (d : dict) :
  In k (keys d) -> keys (dict_set k x d) = keys d.
Proof.
  induction d as [|[k' y] t IH]; simpl; [contradiction|].
  intros Hin. destruct (str_eqb k k') eqn:E; simpl; [reflexivity|].
  f_equal. apply IH. destruct Hin as [Heq | Hin]; [|assumption].
  apply str_eqb_neq in E. congruence.
Qed.

Lemma dict_set_middle (k : str) (x y : json) (p t : dict) :
  ~ In k (keys p) ->
  dict_set k x (p ++ (k, y) :: t) = p ++ (k, x) :: t.
Proof.
  induction p as [|[k' z] p IH]; simpl; intros Hnotin.
  - now rewrite str_eqb_refl.
  - destruct (str_eqb k k') eqn:E.
    + apply str_eqb_eq in E. subst. exfalso. apply Hnotin. now left.
    + f_equal. apply IH. intros Hin. apply Hnotin. now right.
Qed.

(** On distinct keys, an assignment to a present key rewrites that one
    entry and nothing else. *)
Lemma dict_set_map (k : str) (x : json) (d : dict) :
  NoDup (keys d) -> In k (keys d) ->
  dict_set k x d =
  map (fun kv => if str_eqb k (fst kv) then (fst kv, x) else kv) d.
Proof.
  induction d as [|[k' y] t IH]; simpl; [contradiction|].
  intros Hnd Hin. inversion Hnd as [|? ? Hnotin Hnd']; subst.
  destruct (str_eqb k k') eqn:E.
  - f_equal. apply str_eqb_eq in E. subst k'.
    rewrite <- (map_id t) at 1. apply map_ext_in.
    intros [k2 z] Hin2. simpl.
    destruct (str_eqb k k2) eqn:E2; [|reflexivity].
    apply str_eqb_eq in E2. subst k2. exfalso. apply Hnotin.
    apply (in_map fst) in Hin2. exact Hin2.
  - f_equal. apply IH; [assumption|].
    destruct Hin as [Heq | Hin]; [|assumption].
    apply str_eqb_neq in E. congruence.
Qed.

Lemma dict_get_map (g : str * json -> str * json) (k : str) (d : dict) :
  (forall kv, fst (g kv) = fst kv) ->
  dict_get k (map g d) =
  option_map (fun x => snd (g (k, x))) (dict_get k d).
Proof.
  intros Hg. induction d as [|[k' y] t IH]; simpl; [reflexivity|].
  specialize (Hg (k', y)). destruct (g (k', y)) as [k2 z] eqn:Eg.
  simpl in Hg. subst k2.
  destruct (str_eqb k k') eqn:E.
  - apply str_eqb_eq in E. subst k'. simpl. now rewrite Eg.
  - exact IH.
Qed.

(** ** The first pass *)

Lemma or_true_if (c x : bool) : (if c then true else x) = c || x.
Proof. now destruct c. Qed.

Lemma scan_field_cases (st : scan) (item : str * json) :
  scan_field st item =
  match standalone_mask (lower (fst item)) (to_text (snd item)) with
  | Some m => standalone_hit st (fst item) m
  | None =>
      mkScan (sig_name item || hasFullName st)
             (sig_email item || hasEmail st)
             (sig_address item || hasAddress st)
             (sig_device item || hasDeviceOrIp st)
             (standaloneHit st) (redacted st)
  end.
Proof.
  destruct item as [key value].
  unfold scan_field, standalone_mask, sig_name, sig_email, sig_address,
    sig_device. cbn [fst snd].
  destruct (in_set (lower key) phoneKeys && is10DigitPhone (to_text value));
    [reflexivity|].
  destruct (in_set (lower key) aadharKeys && isAadhar (to_text value));
    [reflexivity|].
  destruct (in_set (lower key) passportKeys && isPassport (to_text value));
    [reflexivity|].
  destruct (in_set (lower key) upiKeys && isUpi (to_text value));
    [reflexivity|].
  now rewrite !or_true_if.
Qed.

(** The alias sets of the standalone roles share no name with the
    combinational fields. *)
Lemma alias_not_combo (k : str) :
  standalone_alias k = true ->
  str_eqb k (py "name") = false /\ str_eqb k (py "email") = false /\
  str_eqb k (py "address") = false /\
  in_set k [py "ip_address"; py "device_id"] = false.
Proof.
  unfold standalone_alias. rewrite !orb_true_iff, !in_set_In.
  unfold phoneKeys, aadharKeys, passportKeys, upiKeys. simpl In.
  intros H.
  repeat match goal with
         | H : _ \/ _ |- _ => destruct H as [H | H]
         | H : False |- _ => contradiction
         end; subst k; repeat split; reflexivity.
Qed.

Lemma standalone_mask_alias (k v m : str) :
  standalone_mask k v = Some m -> standalone_alias k = true.
Proof.
  unfold standalone_mask, standalone_alias.
  destruct (in_set k phoneKeys); [reflexivity|].
  destruct (in_set k aadharKeys); [reflexivity|].
  destruct (in_set k passportKeys); [reflexivity|].
  destruct (in_set k upiKeys); [reflexivity|discriminate].
Qed.

Lemma standalone_mask_match (k v : str) :
  standalone_mask k v = None <-> standalone_match k v = false.
Proof.
  unfold standalone_mask, standalone_match.
  destruct (in_set k phoneKeys && is10DigitPhone v);
    destruct (in_set k aadharKeys && isAadhar v);
    destruct (in_set k passportKeys && isPassport v);
    destruct (in_set k upiKeys && isUpi v);
    simpl; split; congruence.
Qed.

Lemma hit_no_signal (item : str * json) :
  is_hit item = true ->
  sig_name item = false /\ sig_email item = false /\
  sig_address item = false /\ sig_device item = false.
Proof.
  unfold is_hit.
  destruct (standalone_mask (lower (fst item)) (to_text (snd item)))
    as [m|] eqn:E; [|discriminate].
  intros _. apply standalone_mask_alias, alias_not_combo in E.
  destruct E as (E1 & E2 & E3 & E4).
  unfold sig_name, sig_email, sig_address, sig_device.
  now rewrite E1, E2, E3, E4.
Qed.

(** The flags after the loop: a signal is set when some field activates
    it, and the standalone flag when some field is a standalone hit. *)
Lemma scan_fold_flags (items : dict) (st : scan) :
  let st' := fold_left scan_field items st in
  hasFullName st' = hasFullName st || existsb sig_name items /\
  hasEmail st' = hasEmail st || existsb sig_email items /\
  hasAddress st' = hasAddress st || existsb sig_address items /\
  hasDeviceOrIp st' = hasDeviceOrIp st || existsb sig_device items /\
  standaloneHit st' = standaloneHit st || existsb is_hit items.
Proof.
  revert st. induction items as [|item t IH]; intros st; simpl.
  - now rewrite !orb_false_r.
  - specialize (IH (scan_field st item)).
    destruct IH as (I1 & I2 & I3 & I4 & I5).
    rewrite I1, I2, I3, I4, I5. clear I1 I2 I3 I4 I5.
    rewrite scan_field_cases.
    pose proof (hit_no_signal item) as Hns. unfold is_hit in *.
    destruct (standalone_mask (lower (fst item)) (to_text (snd item)))
      as [m|] eqn:E.
    + destruct (Hns eq_refl) as (E1 & E2 & E3 & E4).
      rewrite E1, E2, E3, E4. simpl.
      now rewrite orb_true_r.
    + simpl. repeat split;
        repeat rewrite orb_assoc; f_equal; apply orb_comm.
Qed.

Lemma fst_scan_item (item : str * json) : fst (scan_item item) = fst item.
Proof.
  unfold scan_item.
  now destruct (standalone_mask (lower (fst item)) (to_text (snd item))).
Qed.

(** The copy after the loop, on distinct keys: each field is rewritten on
    its own. *)
Lemma scan_fold_redacted (items p : dict) (st : scan) :
  redacted st = p ++ items ->
  NoDup (keys (p ++ items)) ->
  redacted (fold_left scan_field items st) = p ++ map scan_item items.
Proof.
  revert p st. induction items as [|[key value] t IH]; intros p st Hred Hnd.
  - simpl. now rewrite Hred.
  - cbn [fold_left map].
    assert (Hnotin : ~ In key (keys p)).
    { rewrite keys_app in Hnd. simpl in Hnd.
      apply NoDup_remove_2 in Hnd. intros Hin. apply Hnd.
      apply in_or_app. now left. }
    assert (Hstep : redacted (scan_field st (key, value)) =
                    (p ++ [scan_item (key, value)]) ++ t).
    { rewrite scan_field_cases. unfold scan_item. cbn [fst snd].
      destruct (standalone_mask (lower key) (to_text value)) as [m|];
        simpl; rewrite Hred, <- app_assoc; simpl;
        [now apply dict_set_middle | reflexivity]. }
    rewrite (IH _ _ Hstep).
    + now rewrite <- app_assoc.
    + rewrite <- app_assoc. simpl.
      rewrite keys_app in *. simpl in *. now rewrite fst_scan_item.
Qed.

(** Whatever the keys, the loop keeps the keys of the copy. *)
Lemma scan_fold_keys (items : dict) (st : scan) :
  (forall item, In item items -> In (fst item) (keys (redacted st))) ->
  keys (redacted (fold_left scan_field items st)) = keys (redacted st).
Proof.
  revert st. induction items as [|item t IH]; intros st Hin; [reflexivity|].
  cbn [fold_left].
  assert (Hk : keys (redacted (scan_field st item)) = keys (redacted st)).
  { rewrite scan_field_cases.
    destruct (standalone_mask (lower (fst item)) (to_text (snd item)));
      simpl; [|reflexivity].
    apply dict_set_keys, Hin. now left. }
  rewrite IH, Hk; [reflexivity|].
  intros item' Hin'. rewrite Hk. apply Hin. now right.
Qed.

(** Without a standalone hit the loop leaves the copy as it was. *)
Lemma scan_fold_no_hit (items : dict) (st : scan) :
  standaloneHit (fold_left scan_field items st) = false ->
  redacted (fold_left scan_field items st) = redacted st.
Proof.
  revert st. induction items as [|item t IH]; intros st H; [reflexivity|].
  cbn [fold_left] in *. rewrite (IH _ H).
  destruct (scan_fold_flags t (scan_field st item)) as (_ & _ & _ & _ & F).
  cbv zeta in F. rewrite F in H. apply orb_false_iff in H. destruct H as [H _].
  rewrite scan_field_cases in H |- *.
  destruct (standalone_mask (lower (fst item)) (to_text (snd item)));
    [discriminate | reflexivity].
Qed.

(** ** The second pass *)

Lemma str_eqb_sym (a b : str) : str_eqb a b = str_eqb b a.
Proof.
  destruct (str_eqb b a) eqn:E.
  - apply str_eqb_eq in E. subst. apply str_eqb_refl.
  - apply str_eqb_neq. apply str_eqb_neq in E. congruence.
Qed.

Lemma fst_layer k f g :
  (forall kv, fst (g kv) = fst kv) ->
  forall kv, fst (layer k f g kv) = fst kv.
Proof.
  intros Hg kv. unfold layer.
  destruct (str_eqb (fst kv) k); [destruct (f (snd kv))|]; simpl; auto.
Qed.

Lemma keys_map_fst (g : str * json -> str * json) (r : dict) :
  (forall kv, fst (g kv) = fst kv) -> keys (map g r) = keys r.
Proof.
  intros Hg. unfold keys. rewrite map_map. apply map_ext. exact Hg.
Qed.

Lemma assign_layer (k : str) (f : json -> option str)
    (g : str * json -> str * json) (r : dict) :
  NoDup (keys r) ->
  (forall kv, fst (g kv) = fst kv) ->
  match dict_get k r with
  | Some x =>
      match f x with
      | Some m => dict_set k (JStr m) (map g r)
      | None => map g r
      end
  | None => map g r
  end = map (layer k f g) r.
Proof.
  intros Hnd Hg.
  assert (Hval : forall kv, In kv r -> str_eqb (fst kv) k = true ->
                            dict_get k r = Some (snd kv)).
  { intros [k' x] Hin E. apply str_eqb_eq in E. simpl in E. subst k'.
    now apply NoDup_dict_get. }
  destruct (dict_get k r) as [x|] eqn:Eget.
  - destruct (f x) as [m|] eqn:Ef.
    + rewrite dict_set_map.
      * rewrite map_map. apply map_ext_in. intros kv Hin.
        unfold layer. rewrite Hg, (str_eqb_sym k).
        destruct (str_eqb (fst kv) k) eqn:E; [|reflexivity].
        pose proof (Hval kv Hin E) as Hx. injection Hx as <-.
        now rewrite Ef.
      * now rewrite keys_map_fst.
      * rewrite keys_map_fst by assumption. eapply dict_get_key; eauto.
    + apply map_ext_in. intros kv Hin. unfold layer.
      destruct (str_eqb (fst kv) k) eqn:E; [|reflexivity].
      pose proof (Hval kv Hin E) as Hx. injection Hx as <-.
      now rewrite Ef.
  - apply map_ext_in. intros kv Hin. unfold layer.
    destruct (str_eqb (fst kv) k) eqn:E; [|reflexivity].
    pose proof (Hval kv Hin E) as Hx. discriminate.
Qed.

Lemma redact_name_layer (g : str * json -> str * json) (r : dict) :
  NoDup (keys r) -> (forall kv, fst (g kv) = fst kv) ->
  redact_name r (map g r) = map (layer (py "name") name_mask g) r.
Proof.
  intros Hnd Hg. rewrite <- assign_layer by assumption.
  unfold redact_name, name_mask.
  destruct (dict_get (py "name") r) as [[| | |s| |]|]; try reflexivity.
  now destruct (2 <=? length (split_ws s)).
Qed.

Lemma redact_email_layer (g : str * json -> str * json) (r : dict) :
  NoDup (keys r) -> (forall kv, fst (g kv) = fst kv) ->
  redact_email r (map g r) = map (layer (py "email") email_mask g) r.
Proof.
  intros Hnd Hg. rewrite <- assign_layer by assumption.
  unfold redact_email, email_mask.
  destruct (dict_get (py "email") r) as [[| | |s| |]|]; try reflexivity.
  now destruct (contains "@" s).
Qed.

Lemma redact_address_layer (g : str * json -> str * json) (r : dict) :
  NoDup (keys r) -> (forall kv, fst (g kv) = fst kv) ->
  redact_address r (map g r) =
  if bad_address r then AttributeError
  else Ok (map (layer (py "address") address_mask g) r).
Proof.
  intros Hnd Hg. rewrite <- assign_layer by assumption.
  unfold redact_address, bad_address, address_mask.
  destruct (dict_get (py "address") r) as [a|]; [|reflexivity].
  destruct (looksLikeAddress a) as [[|]|]; reflexivity.
Qed.

Lemma redact_device_layer (field : str) (g : str * json -> str * json)
    (r : dict) :
  NoDup (keys r) -> (forall kv, fst (g kv) = fst kv) ->
  redact_device field r (map g r) = map (layer field device_mask g) r.
Proof.
  intros Hnd Hg. rewrite <- assign_layer by assumption.
  unfold redact_device, device_mask.
  destruct (dict_get field r) as [x|]; [|reflexivity].
  now destruct (truthy x).
Qed.

(** The five names the second pass looks up carry no standalone role. *)
Lemma combo_key_no_mask (k v : str) :
  In k [py "name"; py "email"; py "address"; py "ip_address";
        py "device_id"] ->
  standalone_mask (lower k) v = None.
Proof.
  intros Hin. destruct (standalone_mask (lower k) v) as [m|] eqn:E;
    [|reflexivity].
  apply standalone_mask_alias, alias_not_combo in E.
  destruct E as (E1 & E2 & E3 & E4). exfalso.
  simpl in Hin.
  repeat match goal with
         | H : _ \/ _ |- _ => destruct H as [H | H]
         | H : False |- _ => contradiction
         end; subst k; vm_compute in E1, E2, E3, E4; discriminate.
Qed.

(** The five assignments of the second pass on top of the first pass are
    [redact_item true], field by field. *)
Lemma layers_redact_item (kv : str * json) :
  layer (py "device_id") device_mask
    (layer (py "ip_address") device_mask
       (layer (py "address") address_mask
          (layer (py "email") email_mask
             (layer (py "name") name_mask scan_item)))) kv =
  redact_item true kv.
Proof.
  destruct kv as [key value]. unfold layer, redact_item, scan_item,
    combo_mask. cbn [fst snd].
  destruct (str_eqb key (py "name")) eqn:E1.
  { apply str_eqb_eq in E1. subst key.
    rewrite (combo_key_no_mask (py "name")) by (simpl; tauto).
    change (str_eqb (py "name") (py "device_id")) with false.
    change (str_eqb (py "name") (py "ip_address")) with false.
    change (str_eqb (py "name") (py "address")) with false.
    change (str_eqb (py "name") (py "email")) with false.
    cbv iota. reflexivity. }
  destruct (str_eqb key (py "email")) eqn:E2.
  { apply str_eqb_eq in E2. subst key.
    rewrite (combo_key_no_mask (py "email")) by (simpl; tauto).
    change (str_eqb (py "email") (py "device_id")) with false.
    change (str_eqb (py "email") (py "ip_address")) with false.
    change (str_eqb (py "email") (py "address")) with false.
    cbv iota. reflexivity. }
  destruct (str_eqb key (py "address")) eqn:E3.
  { apply str_eqb_eq in E3. subst key.
    rewrite (combo_key_no_mask (py "address")) by (simpl; tauto).
    change (str_eqb (py "address") (py "device_id")) with false.
    change (str_eqb (py "address") (py "ip_address")) with false.
    cbv iota. reflexivity. }
  destruct (str_eqb key (py "ip_address")) eqn:E4.
  { apply str_eqb_eq in E4. subst key.
    rewrite (combo_key_no_mask (py "ip_address")) by (simpl; tauto).
    change (str_eqb (py "ip_address") (py "device_id")) with false.
    cbv iota. reflexivity. }
  destruct (str_eqb key (py "device_id")) eqn:E5.
  { apply str_eqb_eq in E5. subst key.
    rewrite (combo_key_no_mask (py "device_id")) by (simpl; tauto).
    reflexivity. }
  reflexivity.
Qed.

Lemma fst_redact_item (combo : bool) (kv : str * json) :
  fst (redact_item combo kv) = fst kv.
Proof.
  unfold redact_item.
  destruct (standalone_mask (lower (fst kv)) (to_text (snd kv)));
    [reflexivity|].
  destruct combo; [destruct (combo_mask kv)|]; reflexivity.
Qed.

Lemma combo_triggered_scan (r : dict) :
  (2 <=? comboHits (fold_left scan_field r (scan_init r)))%Z =
  combo_triggered r.
Proof.
  unfold comboHits, combo_triggered.
  destruct (scan_fold_flags r (scan_init r)) as (F1 & F2 & F3 & F4 & _).
  cbv zeta in *. now rewrite F1, F2, F3, F4.
Qed.

(** [detectAndRedact] on a dict, field by field: it raises when the second
    pass runs on an ["address"] that is neither falsy nor a string, and
    otherwise redacts every field on its own. *)
Lemma detectAndRedact_fieldwise (r : dict) :
  NoDup (keys r) ->
  detectAndRedact r =
  if combo_triggered r && bad_address r then AttributeError
  else Ok (map (redact_item (combo_triggered r)) r,
           existsb is_hit r || combo_triggered r).
Proof.
  intros Hnd. unfold detectAndRedact. rewrite combo_triggered_scan.
  destruct (scan_fold_flags r (scan_init r)) as (_ & _ & _ & _ & F5).
  cbv zeta in F5. rewrite F5. simpl (standaloneHit (scan_init r)).
  rewrite (scan_fold_redacted r [] (scan_init r) eq_refl Hnd).
  simpl ([] ++ _).
  destruct (combo_triggered r); simpl.
  - unfold redact_combo.
    rewrite redact_name_layer by (assumption || apply fst_scan_item).
    rewrite redact_email_layer
      by (assumption || apply fst_layer, fst_scan_item).
    rewrite redact_address_layer
      by (assumption || apply fst_layer, fst_layer, fst_scan_item).
    destruct (bad_address r); [reflexivity|]. simpl.
    rewrite redact_device_layer
      by (assumption || apply fst_layer, fst_layer, fst_layer, fst_scan_item).
    rewrite redact_device_layer
      by (assumption ||
          apply fst_layer, fst_layer, fst_layer, fst_layer, fst_scan_item).
    rewrite orb_true_r. do 2 f_equal.
    apply map_ext. intros kv. apply layers_redact_item.
  - rewrite orb_false_r. reflexivity.
Qed.

(** ** Keys of the redacted record *)

Lemma redact_name_keys (data red : dict) :
  keys red = keys data -> keys (redact_name data red) = keys data.
Proof.
  intros Hk. unfold redact_name.
  destruct (dict_get (py "name") data) as [[| | |s| |]|] eqn:E;
    try assumption.
  destruct (2 <=? length (split_ws s)); [|assumption].
  rewrite dict_set_keys; [assumption|].
  rewrite Hk. eapply dict_get_key; eauto.
Qed.

Lemma redact_email_keys (data red : dict) :
  keys red = keys data -> keys (redact_email data red) = keys data.
Proof.
  intros Hk. unfold redact_email.
  destruct (dict_get (py "email") data) as [[| | |s| |]|] eqn:E;
    try assumption.
  destruct (contains "@" s); [|assumption].
  rewrite dict_set_keys; [assumption|].
  rewrite Hk. eapply dict_get_key; eauto.
Qed.

Lemma redact_address_keys (data red red' : dict) :
  keys red = keys data -> redact_address data red = Ok red' ->
  keys red' = keys data.
Proof.
  intros Hk. unfold redact_address.
  destruct (dict_get (py "address") data) as [a|] eqn:E.
  - destruct (looksLikeAddress a) as [[|]|]; simpl; try discriminate;
      intros [= <-]; [|assumption].
    rewrite dict_set_keys; [assumption|].
    rewrite Hk. eapply dict_get_key; eauto.
  - intros [= <-]. assumption.
Qed.

Lemma redact_device_keys (field : str) (data red : dict) :
  keys red = keys data -> keys (redact_device field data red) = keys data.
Proof.
  intros Hk. unfold redact_device.
  destruct (dict_get field data) as [x|] eqn:E; [|assumption].
  destruct (truthy x); [|assumption].
  rewrite dict_set_keys; [assumption|].
  rewrite Hk. eapply dict_get_key; eauto.
Qed.

Lemma redact_combo_keys (data red red' : dict) :
  keys red = keys data -> redact_combo data red = Ok red' ->
  keys red' = keys data.
Proof.
  intros Hk. unfold redact_combo.
  destruct (redact_address data (redact_email data (redact_name data red)))
    as [ra|] eqn:E; simpl; [|discriminate].
  intros [= <-].
  apply redact_device_keys, redact_device_keys.
  eapply redact_address_keys; [|exact E].
  now apply redact_email_keys, redact_name_keys.
Qed.

(** ** When the classifier returns *)

(** [detectAndRedact] returns unless the second pass meets an ["address"]
    on which [looksLikeAddress] raises. *)
Lemma detectAndRedact_returns (r : dict) :
  bad_address r = false ->
  exists red pii, detectAndRedact r = Ok (red, pii).
Proof.
  intros Hbad. unfold detectAndRedact.
  set (st := fold_left scan_field r (scan_init r)).
  destruct (2 <=? comboHits st)%Z; simpl; [|eauto].
  unfold redact_combo.
  set (red := redact_email r (redact_name r (redacted st))).
  unfold redact_address, bad_address in *.
  destruct (dict_get (py "address") r) as [a|]; simpl; [|eauto].
  destruct (looksLikeAddress a); [simpl; eauto | discriminate].
Qed.

(** ** Aliases and the second pass *)

Lemma alias_key_no_combo_mask (key : str) (value : json) :
  standalone_alias (lower key) = true -> combo_mask (key, value) = None.
Proof.
  intros Ha. apply alias_not_combo in Ha. destruct Ha as (E1 & E2 & E3 & E4).
  unfold combo_mask.
  destruct (str_eqb key (py "name")) eqn:K1.
  { apply str_eqb_eq in K1. subst key. discriminate E1. }
  destruct (str_eqb key (py "email")) eqn:K2.
  { apply str_eqb_eq in K2. subst key. discriminate E2. }
  destruct (str_eqb key (py "address")) eqn:K3.
  { apply str_eqb_eq in K3. subst key. discriminate E3. }
  destruct (str_eqb key (py "ip_address")) eqn:K4.
  { apply str_eqb_eq in K4. subst key. discriminate E4. }
  destruct (str_eqb key (py "device_id")) eqn:K5.
  { apply str_eqb_eq in K5. subst key. discriminate E4. }
  reflexivity.
Qed.

(** ** Stripping *)

Lemma lstrip_idem (s : str) : lstrip (lstrip s) = lstrip s.
Proof.
  induction s as [|c t IH]; simpl; [reflexivity|].
  destruct (is_space c) eqn:E; [exact IH|]. simpl. now rewrite E.
Qed.

Lemma lstrip_app_nonspace (x z : str) (c : ascii) :
  is_space c = false -> lstrip (x ++ c :: z) = lstrip x ++ c :: z.
Proof.
  intros Hc. induction x as [|a x IH]; simpl.
  - now rewrite Hc.
  - destruct (is_space a); [exact IH | reflexivity].
Qed.

Lemma rstrip_idem (s : str) : rstrip (rstrip s) = rstrip s.
Proof. unfold rstrip. now rewrite rev_involutive, lstrip_idem. Qed.

Lemma rstrip_app_nonspace (a h : str) (c : ascii) :
  is_space c = false -> rstrip (a ++ c :: h) = a ++ c :: rstrip h.
Proof.
  intros Hc. unfold rstrip.
  rewrite rev_app_distr. simpl. rewrite <- app_assoc. simpl.
  rewrite lstrip_app_nonspace by assumption.
  rewrite rev_app_distr. simpl. rewrite rev_involutive.
  now rewrite <- app_assoc.
Qed.

Lemma lstrip_head (s t : str) (c : ascii) :
  lstrip s = c :: t -> is_space c = false.
Proof.
  induction s as [|a s IH]; simpl; [discriminate|].
  destruct (is_space a) eqn:E; [exact IH|]. intros [= <- _]. exact E.
Qed.

(** A stripped string is empty, or starts with a character that is not
    whitespace and goes on with a right-stripped text. *)
Lemma strip_cases (s : str) :
  strip s = [] \/
  exists c t, is_space c = false /\ lstrip s = c :: t /\
              strip s = c :: rstrip t.
Proof.
  unfold strip. destruct (lstrip s) as [|c t] eqn:E.
  - now left.
  - right. exists c, t. pose proof (lstrip_head _ _ _ E) as Hc.
    repeat split; try assumption.
    now apply (rstrip_app_nonspace []).
Qed.

Lemma strip_idem (s : str) : strip (strip s) = strip s.
Proof.
  destruct (strip_cases s) as [E | (c & t & Hc & _ & E)]; rewrite E.
  - reflexivity.
  - unfold strip. cbn [lstrip]. rewrite Hc.
    pose proof (rstrip_app_nonspace [] (rstrip t) c Hc) as H.
    cbn [app] in H. now rewrite H, rstrip_idem.
Qed.

(** Stripping around a character that is not whitespace. *)
Lemma strip_around (u h : str) (c : ascii) :
  is_space c = false ->
  strip (u ++ c :: h) = lstrip u ++ c :: rstrip h.
Proof.
  intros Hc. unfold strip.
  rewrite lstrip_app_nonspace by assumption.
  now apply rstrip_app_nonspace.
Qed.

Lemma stripped_around (u h : str) (c : ascii) (s : str) :
  is_space c = false -> strip s = u ++ c :: h ->
  lstrip u = u /\ rstrip h = h.
Proof.
  intros Hc E. pose proof (strip_idem s) as Hi. rewrite E in Hi.
  rewrite strip_around in Hi by assumption.
  assert (Hlen : length (lstrip u) = length u).
  { apply (f_equal (@length ascii)) in Hi.
    rewrite !length_app in Hi. simpl in Hi.
    assert (length (lstrip u) <= length u).
    { clear. induction u as [|a u IH]; simpl; [lia|].
      destruct (is_space a); simpl; lia. }
    assert (length (rstrip h) <= length h).
    { clear. unfold rstrip. rewrite length_rev, <- (length_rev h).
      induction (rev h) as [|a u IH]; simpl; [lia|].
      destruct (is_space a); simpl; lia. }
    lia. }
  assert (Hu : lstrip u = u).
  { clear - Hlen. induction u as [|a u IH]; simpl in *; [reflexivity|].
    destruct (is_space a); [|reflexivity].
    exfalso.
    assert (length (lstrip u) <= length u).
    { clear. induction u as [|b u IH]; simpl; [lia|].
      destruct (is_space b); simpl; lia. }
    lia. }
  split; [exact Hu|].
  rewrite Hu in Hi. apply app_inv_head in Hi. now injection Hi.
Qed.

(** ** Membership of a character *)

Lemma contains_app (c : ascii) (a b : str) :
  contains c (a ++ b) = contains c a || contains c b.
Proof. apply existsb_app. Qed.

Lemma contains_rev (c : ascii) (s : str) : contains c (rev s) = contains c s.
Proof.
  induction s as [|a s IH]; simpl; [reflexivity|].
  rewrite contains_app, IH. simpl. rewrite orb_false_r. apply orb_comm.
Qed.

Lemma contains_lstrip (c : ascii) (s : str) :
  is_space c = false -> contains c (lstrip s) = contains c s.
Proof.
  intros Hc. induction s as [|a s IH]; simpl; [reflexivity|].
  destruct (is_space a) eqn:E; [|reflexivity].
  rewrite IH. destruct (Ascii.eqb c a) eqn:Eq; [|reflexivity].
  apply Ascii.eqb_eq in Eq. congruence.
Qed.

Lemma contains_strip (c : ascii) (s : str) :
  is_space c = false -> contains c (strip s) = contains c s.
Proof.
  intros Hc. unfold strip, rstrip.
  now rewrite contains_rev, contains_lstrip, contains_rev, contains_lstrip.
Qed.

Lemma contains_repeat (c x : ascii) (n : nat) :
  Ascii.eqb c x = false -> contains c (repeat x n) = false.
Proof.
  intros H. induction n as [|n IH]; simpl; [reflexivity|].
  now rewrite H, IH.
Qed.

Lemma contains_firstn (c : ascii) (n : nat) (s : str) :
  contains c s = false -> contains c (firstn n s) = false.
Proof.
  revert n. induction s as [|a s IH]; intros [|n]; simpl; try reflexivity.
  intros H. apply orb_false_iff in H. destruct H as [H1 H2].
  now rewrite H1, IH.
Qed.

Lemma contains_skipn (c : ascii) (n : nat) (s : str) :
  contains c s = false -> contains c (skipn n s) = false.
Proof.
  revert n. induction s as [|a s IH]; intros [|n]; simpl; try reflexivity.
  - auto.
  - intros H. apply orb_false_iff in H. destruct H as [H1 H2]. now apply IH.
Qed.

(** ** Splitting at the first occurrence *)

Lemma split_once_found (c : ascii) (s : str) :
  contains c s = true ->
  exists u h, split_once c s = [u; h] /\ s = u ++ c :: h /\
              contains c u = false.
Proof.
  induction s as [|a s IH]; simpl; [discriminate|].
  rewrite Ascii.eqb_sym.
  destruct (Ascii.eqb a c) eqn:E.
  - intros _. apply Ascii.eqb_eq in E. subst a.
    exists [], s. repeat split.
  - simpl. intros H. destruct (IH H) as (u & h & Hs & Heq & Hu).
    exists (a :: u), h. rewrite Hs. repeat split.
    + simpl. now rewrite Heq.
    + simpl. now rewrite Ascii.eqb_sym, E.
Qed.

Lemma split_once_at (c : ascii) (u h : str) :
  contains c u = false -> split_once c (u ++ c :: h) = [u; h].
Proof.
  induction u as [|a u IH]; simpl.
  - intros _. now rewrite Ascii.eqb_refl.
  - intros H. apply orb_false_iff in H. destruct H as [H1 H2].
    rewrite Ascii.eqb_sym, H1. now rewrite IH.
Qed.

(** ** The sentinel of the maskers *)

Lemma isPassport_strip (v : str) : isPassport (strip v) = isPassport v.
Proof. unfold isPassport. now rewrite strip_idem. Qed.

Lemma at_not_space : is_space "@" = false.
Proof. reflexivity. Qed.

(** With an ["@"] in the value, [maskUpi] keeps it and the handle. *)
Lemma maskUpi_with_at (v : str) :
  contains "@" v = true ->
  exists user handle masked,
    strip v = user ++ "@"%char :: handle /\
    contains "@" user = false /\
    maskUpi v = masked ++ "@"%char :: handle.
Proof.
  intros H. rewrite <- (contains_strip _ v at_not_space) in H.
  destruct (split_once_found _ _ H) as (u & h & Hs & Heq & Hu).
  unfold maskUpi. rewrite H, Hs. simpl negb. cbv iota.
  eexists u, h, _. repeat split; try assumption.
Qed.

Lemma maskEmail_with_at (v : str) :
  contains "@" v = true ->
  exists local domain masked,
    strip v = local ++ "@"%char :: domain /\
    contains "@" local = false /\
    maskEmail v = masked ++ "@"%char :: domain.
Proof.
  intros H. rewrite <- (contains_strip _ v at_not_space) in H.
  destruct (split_once_found _ _ H) as (u & h & Hs & Heq & Hu).
  unfold maskEmail. rewrite H, Hs. simpl negb. cbv iota.
  eexists u, h, _. repeat split; try assumption.
Qed.

Lemma with_at_not_sentinel (m h : str) : m ++ "@"%char :: h <> REDACTED.
Proof.
  intros E. apply (f_equal (contains "@")) in E.
  rewrite contains_app in E. simpl in E.
  rewrite orb_true_r in E. discriminate E.
Qed.

(** ** The payment-handle classifier *)

Lemma upi_user_no_at (user : str) :
  forallb upi_user_char user = true -> contains "@" user = false.
Proof.
  unfold contains.
  induction user as [|c t IH]; cbn [forallb existsb]; [reflexivity|].
  intros H. apply andb_true_iff in H. destruct H as [Hc Ht].
  rewrite (IH Ht), orb_false_r.
  destruct (Ascii.eqb "@" c) eqn:E; [|reflexivity].
  apply Ascii.eqb_eq in E. subst c. discriminate Hc.
Qed.

Lemma isUpi_parts (v : str) :
  isUpi v = true <->
  exists user handle,
    strip v = user ++ "@"%char :: handle /\
    (forall c, In c user -> upi_user_char c = true) /\
    2 <= length user /\
    In (lower (before "." handle)) upiHandles.
Proof.
  unfold isUpi. split.
  - destruct (contains "@" (strip v)) eqn:H; cbn [negb]; [|discriminate].
    destruct (split_once_found _ _ H) as (u & h & Hs & Heq & Hu).
    rewrite Hs. destruct (fullmatch_upi_user u) eqn:Hm; cbn [negb];
      [|discriminate].
    intros Hin. exists u, h.
    unfold fullmatch_upi_user in Hm. apply andb_true_iff in Hm.
    destruct Hm as [Hall Hlen].
    split; [exact Heq|].
    split; [now apply forallb_forall|].
    split; [now apply Nat.leb_le | now apply in_set_In].
  - intros (u & h & Heq & Hall & Hlen & Hin).
    apply forallb_forall in Hall.
    pose proof (upi_user_no_at u Hall) as Hu.
    assert (Hat : contains "@" (strip v) = true).
    { rewrite Heq, contains_app. simpl. apply orb_true_r. }
    rewrite Hat. cbn [negb].
    rewrite Heq, split_once_at by assumption.
    unfold fullmatch_upi_user. rewrite Hall.
    apply Nat.leb_le in Hlen. rewrite Hlen. cbn [negb andb].
    now apply in_set_In.
Qed.

(** ** Character classes *)

Ltac split_bools :=
  repeat match goal with
         | H : _ || _ = true |- _ =>
             apply orb_true_iff in H; destruct H as [H | H]
         | H : _ && _ = true |- _ =>
             apply andb_true_iff in H; destruct H
         | H : (_ <=? _) = true |- _ => apply Nat.leb_le in H
         | H : (_ =? _) = true |- _ => apply Nat.eqb_eq in H
         end.

Ltac char_classes :=
  unfold is_alpha, is_upper, is_lower, is_digit, is_space, between in *;
  try (apply not_true_is_false; intros ?);
  split_bools; lia.

Lemma alpha_not_space (c : ascii) : is_alpha c = true -> is_space c = false.
Proof. intros H. char_classes. Qed.

(** ** Lengths and slices *)

Lemma length_filter_le {A} (f : A -> bool) (l : list A) :
  length (filter f l) <= length l.
Proof.
  induction l as [|a l IH]; simpl; [lia|]. destruct (f a); simpl; lia.
Qed.

(** ** The standalone maskers do not hit again *)

Lemma maskPhone_not_phone (v : str) :
  is10DigitPhone v = true -> is10DigitPhone (maskPhone v) = false.
Proof.
  unfold is10DigitPhone, maskPhone. intros H. rewrite H. cbn [negb].
  apply Z.eqb_neq. unfold len, digits_of, prefix, suffix.
  rewrite !filter_app.
  change (filter is_digit (xs 6)) with (@nil ascii).
  rewrite !length_app. cbn [length].
  pose proof (length_filter_le is_digit (firstn 2 (filter is_digit v))).
  pose proof (length_filter_le is_digit
    (skipn (length (filter is_digit v) - 2) (filter is_digit v))).
  pose proof (length_firstn 2 (filter is_digit v)).
  pose proof (length_skipn (length (filter is_digit v) - 2)
                (filter is_digit v)).
  lia.
Qed.

Lemma maskAadhar_not_aadhar (v : str) :
  isAadhar v = true -> isAadhar (maskAadhar v) = false.
Proof.
  unfold isAadhar, maskAadhar. intros H. rewrite H. cbn [negb].
  apply Z.eqb_neq. unfold len, digits_of, suffix.
  rewrite !filter_app.
  change (filter is_digit (py "XXXX XXXX ")) with (@nil ascii).
  rewrite !length_app. cbn [length].
  pose proof (length_filter_le is_digit
    (skipn (length (filter is_digit v) - 4) (filter is_digit v))).
  pose proof (length_skipn (length (filter is_digit v) - 4)
                (filter is_digit v)).
  unfold isAadhar, len, digits_of in H. apply Z.eqb_eq in H.
  lia.
Qed.

Lemma lstrip_nonspace (c : ascii) (t : str) :
  is_space c = false -> lstrip (c :: t) = c :: t.
Proof. intros H. simpl. now rewrite H. Qed.

Lemma lstrip_spacefree (s : str) : spacefree s = true -> lstrip s = s.
Proof.
  destruct s as [|c t]; [reflexivity|]. unfold spacefree. cbn [forallb].
  intros H. apply andb_true_iff in H. destruct H as [H _].
  apply lstrip_nonspace. now apply negb_true_iff.
Qed.

Lemma spacefree_app (a b : str) :
  spacefree (a ++ b) = spacefree a && spacefree b.
Proof. apply forallb_app. Qed.

Lemma spacefree_rev (s : str) : spacefree (rev s) = spacefree s.
Proof.
  induction s as [|c t IH]; [reflexivity|]. cbn [rev].
  rewrite spacefree_app, IH. unfold spacefree. cbn [forallb].
  rewrite andb_true_r. apply andb_comm.
Qed.

Lemma rstrip_spacefree (s : str) : spacefree s = true -> rstrip s = s.
Proof.
  intros H. unfold rstrip. rewrite lstrip_spacefree.
  - apply rev_involutive.
  - now rewrite spacefree_rev.
Qed.

Lemma strip_spacefree (s : str) : spacefree s = true -> strip s = s.
Proof.
  intros H. unfold strip. now rewrite lstrip_spacefree, rstrip_spacefree.
Qed.

Lemma spacefree_repeat (c : ascii) (n : nat) :
  is_space c = false -> spacefree (repeat c n) = true.
Proof.
  intros H. induction n as [|n IH]; [reflexivity|].
  unfold spacefree in *. cbn [repeat forallb]. now rewrite H, IH.
Qed.

Lemma maskPassport_not_passport (v : str) :
  isPassport v = true -> isPassport (maskPassport v) = false.
Proof.
  intros H. unfold maskPassport. rewrite isPassport_strip, H. cbn [negb].
  unfold isPassport in *.
  destruct (strip v) as [|c ds]; [discriminate|].
  cbn [fullmatch_passport] in H.
  apply andb_true_iff in H. destruct H as [H Hlen].
  apply andb_true_iff in H. destruct H as [Hc _].
  cbn [first_char app]. unfold len. cbn [length].
  replace (xs (Z.of_nat (S (length ds)) - 1))
    with (repeat "X"%char (length ds)) by (unfold xs; f_equal; lia).
  rewrite strip_spacefree.
  - cbn [fullmatch_passport]. rewrite repeat_length.
    apply orb_true_iff in Hlen.
    destruct Hlen as [Hlen | Hlen]; apply Nat.eqb_eq in Hlen;
      rewrite Hlen; simpl; now rewrite andb_false_r.
  - unfold spacefree. cbn [forallb].
    rewrite (alpha_not_space c Hc).
    now apply (spacefree_repeat "X").
Qed.

(** ** [maskUpi] and [maskEmail] on their own output *)

Lemma maskedUser_nat (u : str) :
  maskedUser u =
  if length u <=? 4 then firstn 1 u ++ repeat "X"%char (length u - 1)
  else firstn 2 u ++ repeat "X"%char (length u - 4) ++
       skipn (length u - 2) u.
Proof.
  unfold maskedUser, len, prefix, suffix, xs.
  destruct (Z.leb_spec (Z.of_nat (length u)) 4);
    destruct (Nat.leb_spec (length u) 4); try lia;
    repeat f_equal; lia.
Qed.

Lemma mlocal_nat (l : str) :
  mlocal l =
  if length l <=? 2 then firstn 1 l ++ repeat "X"%char (length l - 1)
  else firstn 2 l ++ py "XXX".
Proof.
  unfold mlocal, len, prefix, xs.
  destruct (Z.leb_spec (Z.of_nat (length l)) 2);
    destruct (Nat.leb_spec (length l) 2); try lia;
    repeat f_equal; lia.
Qed.

Lemma firstn_exact {A} (a b : list A) : firstn (length a) (a ++ b) = a.
Proof. induction a as [|x a IH]; simpl; [now destruct b | now rewrite IH]. Qed.

Lemma skipn_exact {A} (a b : list A) : skipn (length a) (a ++ b) = b.
Proof. induction a as [|x a IH]; simpl; auto. Qed.

Lemma length_maskedUser (u : str) : length (maskedUser u) = length u.
Proof.
  rewrite maskedUser_nat.
  destruct (Nat.leb_spec (length u) 4);
    rewrite !length_app, ?length_firstn, ?repeat_length, ?length_skipn; lia.
Qed.

Lemma maskedUser_idem (u : str) : maskedUser (maskedUser u) = maskedUser u.
Proof.
  rewrite (maskedUser_nat (maskedUser u)), length_maskedUser.
  rewrite maskedUser_nat.
  destruct (Nat.leb_spec (length u) 4) as [Hle | Hgt].
  - destruct u as [|a t]; [reflexivity|]. reflexivity.
  - assert (H2 : length (firstn 2 u) = 2) by (rewrite length_firstn; lia).
    f_equal; [|f_equal].
    + rewrite <- H2 at 1. apply firstn_exact.
    + rewrite app_assoc.
      replace (length u - 2)
        with (length (firstn 2 u ++ repeat "X"%char (length u - 4))) at 1
        by (rewrite length_app, repeat_length; lia).
      apply skipn_exact.
Qed.

Lemma mlocal_idem (l : str) : mlocal (mlocal l) = mlocal l.
Proof.
  rewrite !mlocal_nat.
  destruct l as [|a [|b [|c t]]]; reflexivity.
Qed.

Lemma contains_maskedUser (c : ascii) (u : str) :
  Ascii.eqb c "X" = false -> contains c u = false ->
  contains c (maskedUser u) = false.
Proof.
  intros Hx Hu. rewrite maskedUser_nat.
  destruct (length u <=? 4);
    now rewrite !contains_app, ?contains_firstn, ?contains_repeat,
      ?contains_skipn.
Qed.

Lemma contains_mlocal (c : ascii) (l : str) :
  Ascii.eqb c "X" = false -> contains c l = false ->
  contains c (mlocal l) = false.
Proof.
  intros Hx Hl. rewrite mlocal_nat.
  destruct (length l <=? 2);
    rewrite !contains_app, ?contains_firstn, ?contains_repeat by assumption;
    [reflexivity|].
  unfold contains. simpl. now rewrite Hx.
Qed.

Lemma lstrip_maskedUser (u : str) :
  lstrip u = u -> lstrip (maskedUser u) = maskedUser u.
Proof.
  destruct u as [|a t]; [reflexivity|].
  intros H. apply lstrip_head in H. rewrite maskedUser_nat.
  destruct (length (a :: t) <=? 4); cbn [firstn app];
    now apply lstrip_nonspace.
Qed.

Lemma lstrip_mlocal (l : str) : lstrip l = l -> lstrip (mlocal l) = mlocal l.
Proof.
  destruct l as [|a t]; [reflexivity|].
  intros H. apply lstrip_head in H. rewrite mlocal_nat.
  destruct (length (a :: t) <=? 2); cbn [firstn app];
    now apply lstrip_nonspace.
Qed.

(** Masking the user part of [user@handle] again changes nothing. *)
Lemma mask_at_idem (mask : str -> str) (f : str -> str) (v : str) :
  (forall s, contains "@" (strip s) = true ->
     forall u h, split_once "@" (strip s) = [u; h] ->
                 f s = mask u ++ "@"%char :: h) ->
  (forall u, contains "@" u = false -> contains "@" (mask u) = false) ->
  (forall u, lstrip u = u -> lstrip (mask u) = mask u) ->
  (forall u, mask (mask u) = mask u) ->
  contains "@" v = true ->
  f (f v) = f v.
Proof.
  intros Hf Hcont Hstrip Hidem H.
  rewrite <- (contains_strip _ v at_not_space) in H.
  destruct (split_once_found _ _ H) as (u & h & Hs & Heq & Hu).
  rewrite (Hf v H u h Hs).
  destruct (stripped_around u h "@" v at_not_space Heq) as [Hlu Hrh].
  assert (Est : strip (mask u ++ "@"%char :: h) = mask u ++ "@"%char :: h).
  { rewrite strip_around by apply at_not_space.
    now rewrite Hstrip, Hrh. }
  rewrite (Hf (mask u ++ "@"%char :: h)) with (u := mask u) (h := h).
  - now rewrite Hidem.
  - rewrite Est, contains_app. simpl. apply orb_true_r.
  - rewrite Est. apply split_once_at. now apply Hcont.
Qed.

Lemma maskUpi_idem (v : str) :
  contains "@" v = true -> maskUpi (maskUpi v) = maskUpi v.
Proof.
  apply (mask_at_idem maskedUser).
  - intros s H u h Hs. unfold maskUpi. now rewrite H, Hs.
  - intros u. now apply contains_maskedUser.
  - apply lstrip_maskedUser.
  - apply maskedUser_idem.
Qed.

Lemma maskEmail_idem (v : str) :
  contains "@" v = true -> maskEmail (maskEmail v) = maskEmail v.
Proof.
  apply (mask_at_idem mlocal).
  - intros s H u h Hs. unfold maskEmail. now rewrite H, Hs.
  - intros u. now apply contains_mlocal.
  - apply lstrip_mlocal.
  - apply mlocal_idem.
Qed.

Lemma isUpi_contains_at (v : str) : isUpi v = true -> contains "@" v = true.
Proof.
  unfold isUpi. rewrite (contains_strip _ v at_not_space).
  now destruct (contains "@" v).
Qed.

(** ** [maskName] on its own output *)

Lemma space_is_space : is_space " " = true.
Proof. reflexivity. Qed.

(** Every piece of the split is free of whitespace. *)
Lemma re_split_spacefree (b : bool) (s : str) :
  Forall (fun p => spacefree p = true) (re_split_from b s).
Proof.
  revert b. induction s as [|c t IH]; intros b; cbn [re_split_from].
  - repeat constructor.
  - destruct (is_space c) eqn:E.
    + destruct b; [apply IH | constructor; [reflexivity | apply IH]].
    + specialize (IH false).
      destruct (re_split_from false t) as [|u rest].
      * repeat constructor. unfold spacefree. cbn [forallb]. now rewrite E.
      * inversion IH as [|? ? Hu Hrest]; subst. constructor; [|assumption].
        unfold spacefree in *. cbn [forallb]. now rewrite E, Hu.
Qed.

Lemma tokens_are_tokens (b : bool) (s : str) :
  Forall token (filter nonempty (re_split_from b s)).
Proof.
  apply Forall_forall. intros p Hin. apply filter_In in Hin.
  destruct Hin as [Hin Hne].
  pose proof (re_split_spacefree b s) as Hall.
  rewrite Forall_forall in Hall. split; [|now apply Hall].
  intros ->. discriminate.
Qed.

(** A text without whitespace is its only piece. *)
Lemma re_split_token (b : bool) (p : str) :
  token p -> re_split_from b p = [p].
Proof.
  intros [Hne Hsf]. revert b Hne.
  induction p as [|c t IH]; intros b Hne; [congruence|].
  unfold spacefree in Hsf. cbn [forallb] in Hsf.
  apply andb_true_iff in Hsf. destruct Hsf as [Hc Ht].
  apply negb_true_iff in Hc. cbn [re_split_from]. rewrite Hc.
  destruct t as [|d t']; [reflexivity|].
  now rewrite (IH Ht false) by discriminate.
Qed.

(** A token followed by a space: the token is the first piece. *)
Lemma re_split_token_space (b : bool) (p q : str) :
  token p ->
  re_split_from b (p ++ " "%char :: q) = p :: re_split_from true q.
Proof.
  intros [Hne Hsf]. revert b Hne.
  induction p as [|c t IH]; intros b Hne; [congruence|].
  unfold spacefree in Hsf. cbn [forallb] in Hsf.
  apply andb_true_iff in Hsf. destruct Hsf as [Hc Ht].
  apply negb_true_iff in Hc. cbn [app re_split_from]. rewrite Hc.
  destruct t as [|d t'].
  - cbn [app re_split_from]. now rewrite space_is_space.
  - now rewrite (IH Ht false) by discriminate.
Qed.

Lemma re_split_join (b : bool) (ms : list str) :
  ms <> [] -> Forall token ms ->
  re_split_from b (join (py " ") ms) = ms.
Proof.
  intros Hne Hall. revert b.
  induction Hall as [|p rest Hp Hrest IH]; intros b; [congruence|].
  destruct rest as [|p2 rest'].
  - cbn [join]. now apply re_split_token.
  - change (join (py " ") (p :: p2 :: rest'))
      with (p ++ " "%char :: join (py " ") (p2 :: rest')).
    rewrite re_split_token_space by assumption.
    now rewrite IH by discriminate.
Qed.

Lemma token_tight (p : str) : token p -> tight p.
Proof.
  intros [Hne Hsf]. split.
  - destruct p as [|c t]; [congruence|]. exists c, t. split; [reflexivity|].
    unfold spacefree in Hsf. cbn [forallb] in Hsf.
    apply andb_true_iff in Hsf. destruct Hsf as [Hc _].
    now apply negb_true_iff.
  - destruct (exists_last Hne) as (t & d & ->). exists t, d.
    split; [reflexivity|].
    rewrite spacefree_app in Hsf. apply andb_true_iff in Hsf.
    destruct Hsf as [_ Hd]. unfold spacefree in Hd. cbn [forallb] in Hd.
    rewrite andb_true_r in Hd. now apply negb_true_iff.
Qed.

Lemma tight_app (a x b : str) : tight a -> tight b -> tight (a ++ x ++ b).
Proof.
  intros [(c & t & -> & Hc) _] [_ (t' & d & -> & Hd)]. split.
  - exists c, (t ++ x ++ t' ++ [d]). now split.
  - exists ((c :: t) ++ x ++ t'), d. split; [|assumption].
    now rewrite <- !app_assoc.
Qed.

Lemma strip_tight (s : str) : tight s -> strip s = s.
Proof.
  intros [(c & t & E & Hc) (t' & d & E' & Hd)]. unfold strip.
  rewrite E at 1. rewrite lstrip_nonspace by assumption.
  rewrite <- E, E'. rewrite rstrip_app_nonspace by assumption.
  reflexivity.
Qed.

Lemma join_tight (ms : list str) :
  ms <> [] -> Forall token ms -> tight (join (py " ") ms).
Proof.
  intros Hne Hall.
  induction Hall as [|p rest Hp Hrest IH]; [congruence|].
  destruct rest as [|p2 rest'].
  - cbn [join]. now apply token_tight.
  - change (join (py " ") (p :: p2 :: rest'))
      with (p ++ py " " ++ join (py " ") (p2 :: rest')).
    apply tight_app; [now apply token_tight | apply IH; discriminate].
Qed.

Lemma mask_token_cons (c : ascii) (t : str) :
  mask_token (c :: t) = c :: repeat "X"%char (length t).
Proof.
  unfold mask_token, len, xs. cbn [first_char app length].
  do 2 f_equal. lia.
Qed.

Lemma mask_token_token (p : str) : token p -> token (mask_token p).
Proof.
  intros [Hne Hsf]. destruct p as [|c t]; [congruence|].
  rewrite mask_token_cons. split; [discriminate|].
  unfold spacefree in *. cbn [forallb] in *.
  apply andb_true_iff in Hsf. destruct Hsf as [Hc _]. rewrite Hc.
  now apply (spacefree_repeat "X").
Qed.

Lemma mask_token_idem (p : str) : mask_token (mask_token p) = mask_token p.
Proof.
  destruct p as [|c t]; [reflexivity|].
  now rewrite !mask_token_cons, repeat_length.
Qed.

Lemma filter_nonempty_tokens (ms : list str) :
  Forall token ms -> filter nonempty ms = ms.
Proof.
  induction 1 as [|p rest [Hne _] _ IH]; [reflexivity|].
  cbn [filter]. destruct p; [congruence|]. cbn [nonempty]. now rewrite IH.
Qed.

Lemma maskName_idem (v : str) : maskName (maskName v) = maskName v.
Proof.
  unfold maskName at 2 3.
  pose proof (tokens_are_tokens false (strip v)) as Htok.
  fold (re_split_ws (strip v)) in Htok.
  destruct (filter nonempty (re_split_ws (strip v))) as [|p rest] eqn:E.
  - cbn [map]. unfold maskName. now rewrite E.
  - set (ms := map mask_token (p :: rest)).
    assert (Hms : Forall token ms).
    { unfold ms. apply Forall_map.
      eapply Forall_impl; [|exact Htok]. apply mask_token_token. }
    assert (Hne : ms <> []) by (unfold ms; discriminate).
    change (match ms with [] => v | _ :: _ => join (py " ") ms end)
      with (join (py " ") ms).
    unfold maskName.
    rewrite strip_tight by now apply join_tight.
    unfold re_split_ws. rewrite re_split_join by assumption.
    rewrite filter_nonempty_tokens by assumption.
    assert (Hid : map mask_token ms = ms).
    { unfold ms. rewrite map_map. apply map_ext. apply mask_token_idem. }
    rewrite Hid. destruct ms; [congruence | reflexivity].
Qed.

Lemma sentinel_address_ok : looksLikeAddress (JStr REDACTED) = Ok false.
Proof. vm_compute. reflexivity. Qed.

(** ** Redacting a redacted record *)

(** The alias sets of the four standalone roles are pairwise disjoint. *)
Lemma alias_disjoint (k : str) :
  (in_set k phoneKeys = true ->
   in_set k aadharKeys = false /\ in_set k passportKeys = false /\
   in_set k upiKeys = false) /\
  (in_set k aadharKeys = true ->
   in_set k phoneKeys = false /\ in_set k passportKeys = false /\
   in_set k upiKeys = false) /\
  (in_set k passportKeys = true ->
   in_set k phoneKeys = false /\ in_set k aadharKeys = false /\
   in_set k upiKeys = false) /\
  (in_set k upiKeys = true ->
   in_set k phoneKeys = false /\ in_set k aadharKeys = false /\
   in_set k passportKeys = false).
Proof.
  repeat split; revert H; rewrite in_set_In;
    unfold phoneKeys, aadharKeys, passportKeys, upiKeys; simpl In;
    intros H;
    repeat match goal with
           | H : _ \/ _ |- _ => destruct H as [H | H]
           | H : False |- _ => contradiction
           end; subst k; reflexivity.
Qed.

(** A value masked by a standalone masker is not a hit again, or is masked
    to itself. *)
Lemma standalone_mask_stable (k v m : str) :
  standalone_mask k v = Some m ->
  standalone_mask k m = None \/ standalone_mask k m = Some m.
Proof.
  destruct (alias_disjoint k) as (Dp & Da & Dq & Du).
  unfold standalone_mask.
  destruct (in_set k phoneKeys) eqn:Kp.
  { destruct (Dp eq_refl) as (E1 & E2 & E3). rewrite E1, E2, E3.
    cbn [andb]. destruct (is10DigitPhone v) eqn:Hv; [|discriminate].
    intros [= <-]. rewrite (maskPhone_not_phone v Hv). now left. }
  destruct (in_set k aadharKeys) eqn:Ka.
  { destruct (Da eq_refl) as (_ & E2 & E3). rewrite E2, E3.
    cbn [andb]. destruct (isAadhar v) eqn:Hv; [|discriminate].
    intros [= <-]. rewrite (maskAadhar_not_aadhar v Hv). now left. }
  destruct (in_set k passportKeys) eqn:Kq.
  { destruct (Dq eq_refl) as (_ & _ & E3). rewrite E3.
    cbn [andb]. destruct (isPassport v) eqn:Hv; [|discriminate].
    intros [= <-]. rewrite (maskPassport_not_passport v Hv). now left. }
  destruct (in_set k upiKeys) eqn:Ku; cbn [andb]; [|discriminate].
  destruct (isUpi v) eqn:Hv; [|discriminate].
  intros [= <-]. rewrite (maskUpi_idem v (isUpi_contains_at v Hv)).
  destruct (isUpi (maskUpi v)); [now right | now left].
Qed.

(** A value written by the second pass is left alone by a second pass, or
    is written again as it is. *)
Lemma combo_mask_stable (key : str) (value : json) (m : str) :
  combo_mask (key, value) = Some m ->
  combo_mask (key, JStr m) = None \/ combo_mask (key, JStr m) = Some m.
Proof.
  unfold combo_mask.
  destruct (str_eqb key (py "name")).
  { unfold name_mask. destruct value as [| | |s| |]; try discriminate.
    destruct (2 <=? length (split_ws s)); [|discriminate].
    intros [= <-]. rewrite maskName_idem.
    destruct (2 <=? length (split_ws (maskName s))); [now right | now left]. }
  destruct (str_eqb key (py "email")).
  { unfold email_mask. destruct value as [| | |s| |]; try discriminate.
    destruct (contains "@" s) eqn:Hs; [|discriminate].
    intros [= <-]. rewrite (maskEmail_idem s Hs).
    destruct (contains "@" (maskEmail s)); [now right | now left]. }
  destruct (str_eqb key (py "address")).
  { unfold address_mask.
    destruct (looksLikeAddress value) as [[|]|]; try discriminate.
    intros [= <-]. now left. }
  destruct (str_eqb key (py "ip_address")).
  { unfold device_mask. destruct (truthy value); [|discriminate].
    intros [= <-]. now right. }
  destruct (str_eqb key (py "device_id")); [|discriminate].
  unfold device_mask. destruct (truthy value); [|discriminate].
  intros [= <-]. now right.
Qed.

Lemma combo_mask_key (key : str) (value : json) (m : str) :
  combo_mask (key, value) = Some m ->
  In key [py "name"; py "email"; py "address"; py "ip_address";
          py "device_id"].
Proof.
  unfold combo_mask.
  destruct (str_eqb key (py "name")) eqn:K1;
    [apply str_eqb_eq in K1; subst; simpl; tauto|].
  destruct (str_eqb key (py "email")) eqn:K2;
    [apply str_eqb_eq in K2; subst; simpl; tauto|].
  destruct (str_eqb key (py "address")) eqn:K3;
    [apply str_eqb_eq in K3; subst; simpl; tauto|].
  destruct (str_eqb key (py "ip_address")) eqn:K4;
    [apply str_eqb_eq in K4; subst; simpl; tauto|].
  destruct (str_eqb key (py "device_id")) eqn:K5;
    [apply str_eqb_eq in K5; subst; simpl; tauto|].
  discriminate.
Qed.

(** Field by field, a second run leaves a redacted field as it is, as long
    as its second pass runs only if the first one's did. *)
Lemma redact_item_twice (t t' : bool) (kv : str * json) :
  (t' = true -> t = true) ->
  redact_item t' (redact_item t kv) = redact_item t kv.
Proof.
  intros Himp. destruct kv as [key value].
  destruct (standalone_mask (lower key) (to_text value)) as [m|] eqn:E.
  - assert (R : redact_item t (key, value) = (key, JStr m))
      by (unfold redact_item; cbn [fst snd]; now rewrite E).
    rewrite R. unfold redact_item. cbn [fst snd to_text].
    destruct (standalone_mask_stable _ _ _ E) as [E' | E']; rewrite E';
      [|reflexivity].
    rewrite alias_key_no_combo_mask
      by (eapply standalone_mask_alias; eauto).
    now destruct t'.
  - destruct t.
    + destruct (combo_mask (key, value)) as [m|] eqn:C.
      * assert (R : redact_item true (key, value) = (key, JStr m))
          by (unfold redact_item; cbn [fst snd]; now rewrite E, C).
        rewrite R. unfold redact_item. cbn [fst snd to_text].
        rewrite (combo_key_no_mask key m (combo_mask_key _ _ _ C)).
        destruct t'; [|reflexivity].
        destruct (combo_mask_stable _ _ _ C) as [C' | C']; now rewrite C'.
      * assert (R : redact_item true (key, value) = (key, value))
          by (unfold redact_item; cbn [fst snd]; now rewrite E, C).
        rewrite R. unfold redact_item. cbn [fst snd]. rewrite E, C.
        now destruct t'.
    + destruct t'; [specialize (Himp eq_refl); discriminate|].
      assert (R : redact_item false (key, value) = (key, value))
        by (unfold redact_item; cbn [fst snd]; now rewrite E).
      now rewrite !R.
Qed.

Lemma existsb_map {A B} (f : B -> bool) (g : A -> B) (l : list A) :
  existsb f (map g l) = existsb (fun a => f (g a)) l.
Proof.
  induction l as [|a l IH]; simpl; [reflexivity | now rewrite IH].
Qed.

Lemma existsb_ext {A} (f g : A -> bool) (l : list A) :
  (forall a, f a = g a) -> existsb f l = existsb g l.
Proof.
  intros H. induction l as [|a l IH]; simpl; [reflexivity|].
  now rewrite H, IH.
Qed.

(** The first pass changes no signal. *)
Lemma scan_item_signals (kv : str * json) :
  sig_name (scan_item kv) = sig_name kv /\
  sig_email (scan_item kv) = sig_email kv /\
  sig_address (scan_item kv) = sig_address kv /\
  sig_device (scan_item kv) = sig_device kv.
Proof.
  pose proof (hit_no_signal kv) as Hns. unfold is_hit in Hns.
  unfold scan_item.
  destruct (standalone_mask (lower (fst kv)) (to_text (snd kv)))
    as [m|] eqn:E; [|repeat split; reflexivity].
  destruct (Hns eq_refl) as (E1 & E2 & E3 & E4).
  rewrite E1, E2, E3, E4.
  apply standalone_mask_alias, alias_not_combo in E.
  destruct E as (A1 & A2 & A3 & A4).
  unfold sig_name, sig_email, sig_address, sig_device. cbn [fst snd].
  now rewrite A1, A2, A3, A4.
Qed.

Lemma combo_triggered_scan_items (r : dict) :
  combo_triggered (map scan_item r) = combo_triggered r.
Proof.
  unfold combo_triggered. rewrite !existsb_map.
  rewrite (existsb_ext (fun a => sig_name (scan_item a)) sig_name)
    by (intros a; apply scan_item_signals).
  rewrite (existsb_ext (fun a => sig_email (scan_item a)) sig_email)
    by (intros a; apply scan_item_signals).
  rewrite (existsb_ext (fun a => sig_address (scan_item a)) sig_address)
    by (intros a; apply scan_item_signals).
  rewrite (existsb_ext (fun a => sig_device (scan_item a)) sig_device)
    by (intros a; apply scan_item_signals).
  reflexivity.
Qed.

(** An ["address"] that makes the second run raise was there, unchanged,
    in the first run. *)
Lemma bad_address_redacted (t : bool) (r : dict) :
  bad_address (map (redact_item t) r) = true -> bad_address r = true.
Proof.
  unfold bad_address.
  rewrite dict_get_map by apply fst_redact_item.
  destruct (dict_get (py "address") r) as [a|]; cbn [option_map];
    [|discriminate].
  unfold redact_item. cbn [fst snd].
  rewrite (combo_key_no_mask (py "address")) by (simpl; tauto).
  destruct t; [|exact (fun H => H)].
  change (combo_mask (py "address", a)) with (address_mask a).
  unfold address_mask.
  destruct (looksLikeAddress a) as [[|]|] eqn:La; cbn [snd];
    rewrite ?La, ?sentinel_address_ok; auto.
Qed.

Lemma second_run (t : bool) (r : dict) :
  NoDup (keys r) ->
  (combo_triggered (map (redact_item t) r) = true -> t = true) ->
  (t = true -> bad_address r = false) ->
  exists pii,
    detectAndRedact (map (redact_item t) r) =
    Ok (map (redact_item t) r, pii).
Proof.
  intros Hnd Himp Hbad.
  rewrite detectAndRedact_fieldwise
    by (rewrite keys_map_fst; [assumption | apply fst_redact_item]).
  assert (Hok : combo_triggered (map (redact_item t) r) &&
                bad_address (map (redact_item t) r) = false).
  { destruct (combo_triggered (map (redact_item t) r)) eqn:T';
      [|reflexivity].
    destruct (bad_address (map (redact_item t) r)) eqn:B'; [|reflexivity].
    apply bad_address_redacted in B'.
    rewrite (Hbad (Himp eq_refl)) in B'. discriminate. }
  rewrite Hok. eexists. f_equal. f_equal.
  rewrite map_map. apply map_ext. intros kv.
  now apply redact_item_twice.
Qed.

(** A value that fails the classifier of the role of its key takes no
    standalone branch: the alias sets are disjoint. *)
Lemma role_mismatch (k v : str) :
  (in_set k phoneKeys = true /\ is10DigitPhone v = false) \/
  (in_set k aadharKeys = true /\ isAadhar v = false) \/
  (in_set k passportKeys = true /\ isPassport v = false) \/
  (in_set k upiKeys = true /\ isUpi v = false) ->
  standalone_alias k = true /\ standalone_match k v = false.
Proof.
  destruct (alias_disjoint k) as (Dp & Da & Dq & Du).
  unfold standalone_alias, standalone_match.
  intros [[K V] | [[K V] | [[K V] | [K V]]]]; rewrite K, V.
  - destruct (Dp K) as (E1 & E2 & E3). now rewrite E1, E2, E3.
  - destruct (Da K) as (E1 & E2 & E3). now rewrite E1, E2, E3.
  - destruct (Dq K) as (E1 & E2 & E3). now rewrite E1, E2, E3.
  - destruct (Du K) as (E1 & E2 & E3). now rewrite E1, E2, E3.
Qed.

(** * The claims of the specification *)

(** ** C1 *)

(** C1. With name and email active, the placeholder device id ["0.0.0.0"]
    activates no signal in the loop, and the second pass overwrites it all
    the same: its test is the truthiness of the value only. *)
Theorem placeholder_device_is_masked :
  sig_device (py "device_id", JStr (py "0.0.0.0")) = false /\
  detectAndRedact
    [(py "name", JStr (py "Ravi Kumar"));
     (py "email", JStr (py "ravi@example.com"));
     (py "device_id", JStr (py "0.0.0.0"))] =
  Ok ([(py "name", JStr (py "RXXX KXXXX"));
       (py "email", JStr (py "raXXX@example.com"));
       (py "device_id", JStr (py "[REDACTED_PII]"))], true).
Proof. split; vm_compute; reflexivity. Qed.

(** ** C2 *)

(** C2. With the keys ["Name"] and ["Email"] the loop sets both signals
    and the record is flagged, but the second pass looks up ["name"] and
    ["email"] and masks nothing; with lower-cased keys both are masked. *)
Theorem capitalised_keys_not_masked :
  detectAndRedact
    [(py "Name", JStr (py "Ravi Kumar"));
     (py "Email", JStr (py "ravi@example.com"))] =
  Ok ([(py "Name", JStr (py "Ravi Kumar"));
       (py "Email", JStr (py "ravi@example.com"))], true) /\
  detectAndRedact
    [(py "name", JStr (py "Ravi Kumar"));
     (py "email", JStr (py "ravi@example.com"))] =
  Ok ([(py "name", JStr (py "RXXX KXXXX"));
       (py "email", JStr (py "raXXX@example.com"))], true).
Proof. split; vm_compute; reflexivity. Qed.

(** ** C3 *)

(** C3, as stated, fails: ["someone@unknownbank"] is no payment handle,
    and [maskUpi] masks it in part instead of returning the sentinel. *)
Lemma maskUpi_unknown_handle_not_sentinel :
  isUpi (py "someone@unknownbank") = false /\
  maskUpi (py "someone@unknownbank") = py "soXXXne@unknownbank" /\
  maskUpi (py "someone@unknownbank") <> REDACTED.
Proof.
  split; [reflexivity|]. split; [reflexivity|]. discriminate.
Qed.

(** C3, amended. [maskPhone], [maskAadhar] and [maskPassport] return the
    sentinel on every value that fails their classifier; [maskUpi] and
    [maskEmail] return it exactly on the values without ["@"], and mask
    every other value in part, whether it is a payment handle or not. *)
Theorem maskers_sentinel (v : str) :
  (is10DigitPhone v = false -> maskPhone v = REDACTED) /\
  (isAadhar v = false -> maskAadhar v = REDACTED) /\
  (isPassport v = false -> maskPassport v = REDACTED) /\
  (maskUpi v = REDACTED <-> contains "@" v = false) /\
  (maskEmail v = REDACTED <-> contains "@" v = false).
Proof.
  repeat split.
  - unfold is10DigitPhone, maskPhone. now intros ->.
  - unfold isAadhar, maskAadhar. now intros ->.
  - unfold maskPassport. rewrite isPassport_strip. now intros ->.
  - intros E. destruct (contains "@" v) eqn:H; [|reflexivity].
    destruct (maskUpi_with_at v H) as (u & h & m & _ & _ & Em).
    rewrite Em in E. now apply with_at_not_sentinel in E.
  - intros H. unfold maskUpi.
    now rewrite (contains_strip _ v at_not_space), H.
  - intros E. destruct (contains "@" v) eqn:H; [|reflexivity].
    destruct (maskEmail_with_at v H) as (u & h & m & _ & _ & Em).
    rewrite Em in E. now apply with_at_not_sentinel in E.
  - intros H. unfold maskEmail.
    now rewrite (contains_strip _ v at_not_space), H.
Qed.

Lemma maskers_sentinel_witness :
  maskPhone (py "12345") = REDACTED /\
  maskAadhar (py "1234 5678") = REDACTED /\
  maskPassport (py "AB123456") = REDACTED /\
  maskUpi (py "someone") = REDACTED /\
  contains "@" (py "[REDACTED_PII]") = false.
Proof.
  destruct (maskers_sentinel (py "12345")) as (H1 & _).
  destruct (maskers_sentinel (py "1234 5678")) as (_ & H2 & _).
  destruct (maskers_sentinel (py "AB123456")) as (_ & _ & H3 & _).
  destruct (maskers_sentinel (py "someone")) as (_ & _ & _ & [_ H4] & _).
  destruct (maskers_sentinel (py "[REDACTED_PII]"))
    as (_ & _ & _ & _ & [H5 _]).
  split; [apply H1; reflexivity|].
  split; [apply H2; reflexivity|].
  split; [apply H3; reflexivity|].
  split; [apply H4; reflexivity|].
  apply H5. reflexivity.
Defined.

(** ** C4 *)

(** C4, as stated, fails: the integer [9876543210] under ["phone"] is
    serialised to its digits, which are a standalone hit, and is masked. *)
Lemma integer_phone_is_standalone_hit :
  is_hit (py "phone", JInt 9876543210) = true /\
  detectAndRedact [(py "phone", JInt 9876543210)] =
  Ok ([(py "phone", JStr (py "98XXXXXX10"))], true).
Proof. split; vm_compute; reflexivity. Qed.

(** C4, amended. A field whose value is [None] or the empty string leaves
    the loop's state as it was: no standalone hit, no mask, no signal.  Any
    other value that is not a string is serialised by [json.dumps] under a
    standalone role: when that text passes the classifier of the role, the
    field is a standalone hit and the text is masked. *)
Theorem scan_field_empty_or_serialised
    (st : scan) (key : str) (value : json) :
  (value = JNull \/ value = JStr [] -> scan_field st (key, value) = st) /\
  (value <> JNull -> (forall s, value <> JStr s) ->
   forall m, standalone_mask (lower key) (dumps value) = Some m ->
             scan_field st (key, value) = standalone_hit st key m).
Proof.
  split.
  - intros Hempty.
    assert (Htext : to_text value = []) by (destruct Hempty; now subst).
    unfold scan_field. rewrite Htext.
    change (is10DigitPhone []) with false.
    change (isAadhar []) with false.
    change (isPassport []) with false.
    change (isUpi []) with false.
    rewrite !andb_false_r.
    change (2 <=? length (split_ws [])) with false.
    change (contains "@" []) with false.
    change (looksLikeAddress_str []) with false.
    change (nonempty []) with false.
    rewrite ?andb_false_r. simpl. now destruct st.
  - intros Hnull Hstr m Hm.
    assert (Htext : to_text value = dumps value).
    { destruct value; try reflexivity; [congruence | now elim (Hstr s)]. }
    rewrite scan_field_cases. cbn [fst snd]. now rewrite Htext, Hm.
Qed.

Lemma scan_field_empty_or_serialised_witness :
  scan_field (scan_init [(py "phone", JNull)]) (py "phone", JNull) =
  scan_init [(py "phone", JNull)] /\
  scan_field (scan_init [(py "phone", JInt 9876543210)])
    (py "phone", JInt 9876543210) =
  standalone_hit (scan_init [(py "phone", JInt 9876543210)])
    (py "phone") (py "98XXXXXX10").
Proof.
  split.
  - destruct (scan_field_empty_or_serialised
                (scan_init [(py "phone", JNull)]) (py "phone") JNull)
      as [H _].
    apply H. left. reflexivity.
  - destruct (scan_field_empty_or_serialised
                (scan_init [(py "phone", JInt 9876543210)]) (py "phone")
                (JInt 9876543210)) as [_ H].
    apply H; [discriminate | intros s; discriminate | reflexivity].
Defined.

(** ** C5 *)

(** C5. On a record with distinct keys on which [detectAndRedact] returns,
    running it again on the redacted record returns that record unchanged:
    a standalone mask is no hit any more or is masked to itself, and the
    second pass rewrites its own output to itself. *)
Theorem detectAndRedact_idempotent (r red : dict) (pii : bool) :
  NoDup (keys r) ->
  detectAndRedact r = Ok (red, pii) ->
  exists pii', detectAndRedact red = Ok (red, pii').
Proof.
  intros Hnd Hrun. rewrite detectAndRedact_fieldwise in Hrun by assumption.
  destruct (combo_triggered r) eqn:T.
  - destruct (bad_address r) eqn:B; [discriminate|].
    injection Hrun as <- _. now apply second_run.
  - injection Hrun as <- _. apply second_run; [assumption| |discriminate].
    replace (map (redact_item false) r) with (map scan_item r)
      by (apply map_ext; intros kv; reflexivity).
    now rewrite combo_triggered_scan_items, T.
Qed.

Lemma detectAndRedact_idempotent_witness :
  exists pii',
    detectAndRedact
      [(py "name", JStr (py "RXXX KXXXX"));
       (py "address", JStr (py "[REDACTED_PII]"));
       (py "device_id", JStr (py "[REDACTED_PII]"));
       (py "upi", JStr (py "soXXXne@ybl"));
       (py "phone", JStr (py "98XXXXXX10"))] =
    Ok ([(py "name", JStr (py "RXXX KXXXX"));
         (py "address", JStr (py "[REDACTED_PII]"));
         (py "device_id", JStr (py "[REDACTED_PII]"));
         (py "upi", JStr (py "soXXXne@ybl"));
         (py "phone", JStr (py "98XXXXXX10"))], pii').
Proof.
  apply (detectAndRedact_idempotent
    [(py "name", JStr (py "Ravi Kumar"));
     (py "address", JStr (py "12 MG Road, Bengaluru 560001"));
     (py "device_id", JStr (py "0.0.0.0"));
     (py "upi", JStr (py "someone@ybl"));
     (py "phone", JInt 9876543210)] _ true).
  - repeat constructor; simpl; intros H;
      repeat (destruct H as [H | H]; [discriminate H|]); exact H.
  - vm_compute. reflexivity.
Defined.

(** ** C6 *)

(** C6. Whenever [detectAndRedact] returns, the redacted record has the
    keys of the input record, in the same order: only values change. *)
Theorem detectAndRedact_keeps_keys (r red : dict) (pii : bool) :
  detectAndRedact r = Ok (red, pii) -> keys red = keys r.
Proof.
  unfold detectAndRedact.
  set (st := fold_left scan_field r (scan_init r)).
  assert (Hk : keys (redacted st) = keys r).
  { unfold st. rewrite scan_fold_keys; [reflexivity|].
    intros item Hin. simpl. now apply in_map. }
  destruct (2 <=? comboHits st)%Z; simpl.
  - destruct (redact_combo r (redacted st)) as [red'|] eqn:E; simpl;
      [|discriminate].
    intros [= <- _]. eapply redact_combo_keys; eauto.
  - intros [= <- _]. exact Hk.
Qed.

Lemma detectAndRedact_keeps_keys_witness :
  detectAndRedact
    [(py "Name", JStr (py "Ravi Kumar"));
     (py "email", JStr (py "ravi@example.com"));
     (py "phone", JInt 9876543210)] =
  Ok ([(py "Name", JStr (py "Ravi Kumar"));
       (py "email", JStr (py "raXXX@example.com"));
       (py "phone", JStr (py "98XXXXXX10"))], true) /\
  keys [(py "Name", JStr (py "Ravi Kumar"));
        (py "email", JStr (py "raXXX@example.com"));
        (py "phone", JStr (py "98XXXXXX10"))] =
  keys [(py "Name", JStr (py "Ravi Kumar"));
        (py "email", JStr (py "ravi@example.com"));
        (py "phone", JInt 9876543210)].
Proof.
  assert (H : detectAndRedact
    [(py "Name", JStr (py "Ravi Kumar"));
     (py "email", JStr (py "ravi@example.com"));
     (py "phone", JInt 9876543210)] =
    Ok ([(py "Name", JStr (py "Ravi Kumar"));
         (py "email", JStr (py "raXXX@example.com"));
         (py "phone", JStr (py "98XXXXXX10"))], true))
    by (vm_compute; reflexivity).
  split; [exact H | exact (detectAndRedact_keeps_keys _ _ _ H)].
Defined.

(** ** C7 *)

(** C7, as stated, fails: a value with two ["@"] is accepted, since the
    value is split at its first ["@"] only and the handle is cut at its
    first ["."]. *)
Lemma isUpi_two_ats :
  isUpi (py "ab@upi.x@y") = true /\ count "@" (py "ab@upi.x@y") = 2%Z.
Proof. split; reflexivity. Qed.

(** C7, amended. [isUpi] accepts a value exactly when, stripped of
    surrounding whitespace, it reads [user@handle] with [user] made of two
    or more characters of [[A-Za-z0-9._-]] (so the ["@"] is the first one)
    and [handle], cut at its first ["."] and lower-cased, in [upiHandles].
    ["someone@upi"] is accepted and ["someone@unknownbank"] is not. *)
Theorem isUpi_exactly :
  (forall v : str,
     isUpi v = true <->
     exists user handle,
       strip v = user ++ "@"%char :: handle /\
       (forall c, In c user -> upi_user_char c = true) /\
       2 <= length user /\
       In (lower (before "." handle)) upiHandles) /\
  isUpi (py "someone@upi") = true /\
  isUpi (py "someone@unknownbank") = false.
Proof.
  split; [exact isUpi_parts | split; reflexivity].
Qed.

Lemma isUpi_exactly_witness : isUpi (py " ab.c@YBL.in@x ") = true.
Proof.
  destruct isUpi_exactly as [H _].
  apply (H (py " ab.c@YBL.in@x ")).
  exists (py "ab.c"), (py "YBL.in@x").
  split; [reflexivity|].
  split.
  - intros c Hin. simpl in Hin.
    repeat (destruct Hin as [<- | Hin]; [reflexivity|]). contradiction.
  - split; [simpl; lia|].
    simpl. right. left. reflexivity.
Defined.

(** ** C8 *)

(** C8. The record [{"name": "Ravi Kumar", "email": "ravi@example.com",
    "phone": "9876543210"}] is PII; its phone is masked as a standalone
    hit, and its name and email by the combinational rule. *)
Theorem detectAndRedact_ravi :
  detectAndRedact
    [(py "name", JStr (py "Ravi Kumar"));
     (py "email", JStr (py "ravi@example.com"));
     (py "phone", JStr (py "9876543210"))] =
  Ok ([(py "name", JStr (py "RXXX KXXXX"));
       (py "email", JStr (py "raXXX@example.com"));
       (py "phone", JStr (py "98XXXXXX10"))], true).
Proof. vm_compute. reflexivity. Qed.

(** ** C9 *)

(** C9. In a record with distinct keys, a field whose lower-cased name is
    an alias of a standalone role (phone, national ID, passport, payment
    handle) and whose value, as text, fails the classifier of that role
    keeps its input value in the redacted record. *)
Theorem standalone_mismatch_passes_through
    (r red : dict) (pii : bool) (key : str) (value : json) :
  NoDup (keys r) ->
  In (key, value) r ->
  (in_set (lower key) phoneKeys = true /\
   is10DigitPhone (to_text value) = false) \/
  (in_set (lower key) aadharKeys = true /\
   isAadhar (to_text value) = false) \/
  (in_set (lower key) passportKeys = true /\
   isPassport (to_text value) = false) \/
  (in_set (lower key) upiKeys = true /\
   isUpi (to_text value) = false) ->
  detectAndRedact r = Ok (red, pii) ->
  dict_get key red = Some value.
Proof.
  intros Hnd Hin Hrole Hrun.
  destruct (role_mismatch _ _ Hrole) as [Halias Hfail].
  rewrite detectAndRedact_fieldwise in Hrun by assumption.
  destruct (combo_triggered r && bad_address r); [discriminate|].
  injection Hrun as <- _.
  rewrite dict_get_map by apply fst_redact_item.
  rewrite (NoDup_dict_get key value r Hnd Hin). simpl. f_equal.
  unfold redact_item. cbn [fst snd].
  apply standalone_mask_match in Hfail. rewrite Hfail.
  rewrite alias_key_no_combo_mask by assumption.
  now destruct (combo_triggered r).
Qed.

Lemma standalone_mismatch_passes_through_witness :
  dict_get (py "Mobile")
    [(py "name", JStr (py "RXXX KXXXX"));
     (py "email", JStr (py "raXXX@example.com"));
     (py "Mobile", JStr (py "98765"))] = Some (JStr (py "98765")).
Proof.
  apply (standalone_mismatch_passes_through
    [(py "name", JStr (py "Ravi Kumar"));
     (py "email", JStr (py "ravi@example.com"));
     (py "Mobile", JStr (py "98765"))]
    [(py "name", JStr (py "RXXX KXXXX"));
     (py "email", JStr (py "raXXX@example.com"));
     (py "Mobile", JStr (py "98765"))] true).
  - repeat constructor; simpl; intros H;
      repeat (destruct H as [H | H]; [discriminate H|]); exact H.
  - simpl. right. right. left. reflexivity.
  - left. split; reflexivity.
  - vm_compute. reflexivity.
Defined.

(** ** C10 *)

(** C10. When [detectAndRedact] returns with the flag [False], the redacted
    record is the input record: no value was modified. *)
Theorem detectAndRedact_not_pii_unchanged (r red : dict) :
  detectAndRedact r = Ok (red, false) -> red = r.
Proof.
  unfold detectAndRedact.
  set (st := fold_left scan_field r (scan_init r)).
  destruct (2 <=? comboHits st)%Z; simpl.
  - destruct (redact_combo r (redacted st)); simpl; [|discriminate].
    rewrite orb_true_r. discriminate.
  - rewrite orb_false_r. intros [= <- Hhit].
    unfold st in *. now rewrite scan_fold_no_hit.
Qed.

Lemma detectAndRedact_not_pii_unchanged_witness :
  detectAndRedact
    [(py "name", JStr (py "Ravi Kumar")); (py "phone", JStr (py "12345"))] =
  Ok ([(py "name", JStr (py "Ravi Kumar")); (py "phone", JStr (py "12345"))],
      false) /\
  [(py "name", JStr (py "Ravi Kumar")); (py "phone", JStr (py "12345"))] =
  [(py "name", JStr (py "Ravi Kumar")); (py "phone", JStr (py "12345"))].
Proof.
  assert (H : detectAndRedact
    [(py "name", JStr (py "Ravi Kumar")); (py "phone", JStr (py "12345"))] =
    Ok ([(py "name", JStr (py "Ravi Kumar"));
         (py "phone", JStr (py "12345"))], false))
    by (vm_compute; reflexivity).
  split; [exact H | exact (detectAndRedact_not_pii_unchanged _ _ H)].
Defined.

(** * Further properties of the maskers and of the classifier *)

(** ** Shapes of the standalone masks *)

Lemma digits_of_digits (v : str) : forallb is_digit (digits_of v) = true.
Proof.
  apply forallb_forall. intros c Hin. apply filter_In in Hin. tauto.
Qed.

(** X1. A value with exactly ten digits is masked to its first two digits,
    six [X] and its last two digits, whatever else the value holds. *)
Theorem maskPhone_shape (v : str) :
  is10DigitPhone v = true ->
  exists a b c d,
    maskPhone v = [a; b] ++ py "XXXXXX" ++ [c; d] /\
    is_digit a && is_digit b && is_digit c && is_digit d = true /\
    prefix 2 (digits_of v) = [a; b] /\
    suffix 2 (digits_of v) = [c; d].
Proof.
  intros H. unfold is10DigitPhone in H. unfold maskPhone.
  cbv zeta in *. rewrite H. cbn [negb].
  pose proof (digits_of_digits v) as Hd.
  unfold len in H. apply Z.eqb_eq in H.
  destruct (digits_of v)
    as [|d1 [|d2 [|d3 [|d4 [|d5 [|d6 [|d7 [|d8 [|d9 [|d10 [|d11 t]]]]]]]]]]];
    cbn [length] in H; try lia.
  exists d1, d2, d9, d10.
  cbn [forallb] in Hd.
  repeat (apply andb_true_iff in Hd; destruct Hd as [? Hd]).
  rename H0 into Ha, H1 into Hb, H8 into Hc, H9 into Hdd.
  split; [reflexivity|]. split; [|split; reflexivity].
  now rewrite Ha, Hb, Hc, Hdd.
Qed.

Lemma maskPhone_shape_witness :
  exists a b c d,
    maskPhone (py "tel: 98765-43210 x") = [a; b] ++ py "XXXXXX" ++ [c; d] /\
    is_digit a && is_digit b && is_digit c && is_digit d = true /\
    prefix 2 (digits_of (py "tel: 98765-43210 x")) = [a; b] /\
    suffix 2 (digits_of (py "tel: 98765-43210 x")) = [c; d].
Proof.
  apply (maskPhone_shape (py "tel: 98765-43210 x")). reflexivity.
Defined.

(** X2. A value with exactly twelve digits is masked to ["XXXX XXXX "]
    followed by its last four digits. *)
Theorem maskAadhar_shape (v : str) :
  isAadhar v = true ->
  exists a b c d,
    maskAadhar v = py "XXXX XXXX " ++ [a; b; c; d] /\
    is_digit a && is_digit b && is_digit c && is_digit d = true /\
    suffix 4 (digits_of v) = [a; b; c; d].
Proof.
  intros H. unfold isAadhar in H. unfold maskAadhar.
  cbv zeta in *. rewrite H. cbn [negb].
  pose proof (digits_of_digits v) as Hd.
  unfold len in H. apply Z.eqb_eq in H.
  destruct (digits_of v)
    as [|d1 [|d2 [|d3 [|d4 [|d5 [|d6 [|d7 [|d8 [|d9 [|d10 [|d11 [|d12
        [|d13 t]]]]]]]]]]]]];
    cbn [length] in H; try lia.
  exists d9, d10, d11, d12.
  cbn [forallb] in Hd.
  do 8 (apply andb_true_iff in Hd; destruct Hd as [_ Hd]).
  apply andb_true_iff in Hd. destruct Hd as [Ha Hd].
  apply andb_true_iff in Hd. destruct Hd as [Hb Hd].
  apply andb_true_iff in Hd. destruct Hd as [Hc Hd].
  apply andb_true_iff in Hd. destruct Hd as [Hdd _].
  split; [reflexivity|]. split; [|reflexivity].
  now rewrite Ha, Hb, Hc, Hdd.
Qed.

Lemma maskAadhar_shape_witness :
  exists a b c d,
    maskAadhar (py "1234-5678-9012") = py "XXXX XXXX " ++ [a; b; c; d] /\
    is_digit a && is_digit b && is_digit c && is_digit d = true /\
    suffix 4 (digits_of (py "1234-5678-9012")) = [a; b; c; d].
Proof.
  apply (maskAadhar_shape (py "1234-5678-9012")). reflexivity.
Defined.

(** X3. A passport number, one letter and seven or eight digits after
    stripping, is masked to that letter followed by as many [X] as it had
    digits. *)
Theorem maskPassport_shape (v : str) :
  isPassport v = true ->
  exists c n,
    is_alpha c = true /\ (n = 7 \/ n = 8) /\
    length (strip v) = S n /\ prefix 1 (strip v) = [c] /\
    maskPassport v = c :: repeat "X"%char n.
Proof.
  intros H. unfold maskPassport. rewrite isPassport_strip, H. cbn [negb].
  unfold isPassport in H.
  destruct (strip v) as [|c ds]; [discriminate|].
  cbn [fullmatch_passport] in H.
  apply andb_true_iff in H. destruct H as [H Hlen].
  apply andb_true_iff in H. destruct H as [Hc _].
  exists c, (length ds).
  split; [exact Hc|].
  split.
  { apply orb_true_iff in Hlen.
    destruct Hlen as [Hlen | Hlen]; apply Nat.eqb_eq in Hlen; tauto. }
  split; [reflexivity|]. split; [reflexivity|].
  cbn [first_char app]. unfold len, xs. cbn [length]. do 2 f_equal. lia.
Qed.

Lemma maskPassport_shape_witness :
  exists c n,
    is_alpha c = true /\ (n = 7 \/ n = 8) /\
    length (strip (py " P1234567 ")) = S n /\
    prefix 1 (strip (py " P1234567 ")) = [c] /\
    maskPassport (py " P1234567 ") = c :: repeat "X"%char n.
Proof.
  apply (maskPassport_shape (py " P1234567 ")). reflexivity.
Defined.

(** X4. A value masked by a standalone masker of the phone, national-ID
    or passport role no longer passes the classifier of that role. *)
Theorem standalone_masks_do_not_match (v : str) :
  (is10DigitPhone v = true -> is10DigitPhone (maskPhone v) = false) /\
  (isAadhar v = true -> isAadhar (maskAadhar v) = false) /\
  (isPassport v = true -> isPassport (maskPassport v) = false).
Proof.
  split; [apply maskPhone_not_phone|].
  split; [apply maskAadhar_not_aadhar | apply maskPassport_not_passport].
Qed.

Lemma standalone_masks_do_not_match_witness :
  is10DigitPhone (maskPhone (py "9876543210")) = false /\
  isAadhar (maskAadhar (py "1234 5678 9012")) = false /\
  isPassport (maskPassport (py "P1234567")) = false.
Proof.
  destruct (standalone_masks_do_not_match (py "9876543210")) as (H1 & _).
  destruct (standalone_masks_do_not_match (py "1234 5678 9012"))
    as (_ & H2 & _).
  destruct (standalone_masks_do_not_match (py "P1234567")) as (_ & _ & H3).
  split; [apply H1; reflexivity|].
  split; [apply H2; reflexivity | apply H3; reflexivity].
Defined.

(** ** The maskers of payment handles, e-mail addresses and names *)

Lemma maskUpi_parts (v u h : str) :
  strip v = u ++ "@"%char :: h -> contains "@" u = false ->
  maskUpi v = maskedUser u ++ "@"%char :: h.
Proof.
  intros E Hu. unfold maskUpi. rewrite E.
  rewrite split_once_at by assumption.
  rewrite contains_app. simpl. now rewrite orb_true_r.
Qed.

Lemma maskEmail_parts (v l d : str) :
  strip v = l ++ "@"%char :: d -> contains "@" l = false ->
  maskEmail v = mlocal l ++ "@"%char :: d.
Proof.
  intros E Hl. unfold maskEmail. rewrite E.
  rewrite split_once_at by assumption.
  rewrite contains_app. simpl. now rewrite orb_true_r.
Qed.

Lemma no_at_split (v : str) :
  contains "@" v = true ->
  exists u h, strip v = u ++ "@"%char :: h /\ contains "@" u = false.
Proof.
  intros H. rewrite <- (contains_strip _ v at_not_space) in H.
  destruct (split_once_found _ _ H) as (u & h & _ & Heq & Hu).
  now exists u, h.
Qed.

(** X5. Masking a masked payment handle changes nothing, for every input
    of [maskUpi]. *)
Theorem maskUpi_idempotent (v : str) : maskUpi (maskUpi v) = maskUpi v.
Proof.
  destruct (contains "@" v) eqn:H; [now apply maskUpi_idem|].
  assert (E : maskUpi v = REDACTED).
  { unfold maskUpi. now rewrite (contains_strip _ v at_not_space), H. }
  rewrite E. reflexivity.
Qed.

(** X6. Masking a masked e-mail address changes nothing, for every input
    of [maskEmail]. *)
Theorem maskEmail_idempotent (v : str) : maskEmail (maskEmail v) = maskEmail v.
Proof.
  destruct (contains "@" v) eqn:H; [now apply maskEmail_idem|].
  assert (E : maskEmail v = REDACTED).
  { unfold maskEmail. now rewrite (contains_strip _ v at_not_space), H. }
  rewrite E. reflexivity.
Qed.

(** X7. Masking a masked name changes nothing, for every input of
    [maskName]. *)
Theorem maskName_idempotent (v : str) : maskName (maskName v) = maskName v.
Proof. apply maskName_idem. Qed.

Lemma In_firstn {A} (n : nat) (l : list A) (x : A) :
  In x (firstn n l) -> In x l.
Proof.
  revert n. induction l as [|a l IH]; intros [|n]; simpl; try tauto.
  intros [H | H]; [now left | right; eauto].
Qed.

Lemma In_skipn {A} (n : nat) (l : list A) (x : A) :
  In x (skipn n l) -> In x l.
Proof.
  revert n. induction l as [|a l IH]; intros [|n]; simpl; try tauto.
  intros H. right. eauto.
Qed.

Lemma maskedUser_chars (u : str) (c : ascii) :
  In c (maskedUser u) -> In c u \/ c = "X"%char.
Proof.
  rewrite maskedUser_nat.
  destruct (length u <=? 4); rewrite ?in_app_iff;
    intros H;
    repeat match goal with
           | H : _ \/ _ |- _ => destruct H as [H | H]
           end;
    try (apply repeat_spec in H; now right);
    try (apply In_firstn in H; now left);
    try (apply In_skipn in H; now left).
Qed.

(** X8. A payment handle stays a payment handle when it is masked: the
    masked user part is as long as the original and made of its characters
    and of [X], and the handle is kept. *)
Theorem maskUpi_still_upi (v : str) : isUpi v = true -> isUpi (maskUpi v) = true.
Proof.
  intros H. apply isUpi_parts in H.
  destruct H as (u & h & E & Hall & Hlen & Hin).
  assert (Hu : contains "@" u = false)
    by (apply upi_user_no_at; now apply forallb_forall).
  destruct (stripped_around u h "@" v at_not_space E) as [Hlu Hrh].
  apply isUpi_parts. exists (maskedUser u), h.
  split.
  { rewrite (maskUpi_parts v u h E Hu).
    rewrite strip_around by apply at_not_space.
    now rewrite lstrip_maskedUser, Hrh. }
  split.
  { intros c Hc. apply maskedUser_chars in Hc.
    destruct Hc as [Hc | ->]; [now apply Hall | reflexivity]. }
  split; [now rewrite length_maskedUser | assumption].
Qed.

Lemma maskUpi_still_upi_witness : isUpi (maskUpi (py " someone@YBL.in ")) = true.
Proof. apply (maskUpi_still_upi (py " someone@YBL.in ")). reflexivity. Defined.

(** X9. On a value with an ["@"], [maskUpi] keeps everything after the
    first ["@"] and puts in front of it a text as long as the original user
    part, with the same first character and no ["@"]; the result is as long
    as the stripped value. *)
Theorem maskUpi_keeps_handle (v : str) :
  contains "@" v = true ->
  exists u m h,
    strip v = u ++ "@"%char :: h /\ contains "@" u = false /\
    maskUpi v = m ++ "@"%char :: h /\
    length m = length u /\ prefix 1 m = prefix 1 u /\
    contains "@" m = false /\
    length (maskUpi v) = length (strip v).
Proof.
  intros H. destruct (no_at_split v H) as (u & h & E & Hu).
  exists u, (maskedUser u), h.
  pose proof (maskUpi_parts v u h E Hu) as Em.
  split; [exact E|]. split; [exact Hu|]. split; [exact Em|].
  split; [apply length_maskedUser|].
  split.
  { rewrite maskedUser_nat. unfold prefix.
    destruct u as [|a t]; [reflexivity|].
    now destruct (length (a :: t) <=? 4). }
  split; [now apply contains_maskedUser|].
  rewrite Em, E, !length_app. cbn [length].
  now rewrite length_maskedUser.
Qed.

Lemma maskUpi_keeps_handle_witness :
  exists u m h,
    strip (py "someone@unknownbank") = u ++ "@"%char :: h /\
    contains "@" u = false /\
    maskUpi (py "someone@unknownbank") = m ++ "@"%char :: h /\
    length m = length u /\ prefix 1 m = prefix 1 u /\
    contains "@" m = false /\
    length (maskUpi (py "someone@unknownbank")) =
    length (strip (py "someone@unknownbank")).
Proof. apply (maskUpi_keeps_handle (py "someone@unknownbank")). reflexivity. Defined.

(** X10. On a value with an ["@"], [maskEmail] keeps everything after the
    first ["@"]; a local part of one or two characters keeps its length
    and first character, and a longer one becomes its first two characters
    and ["XXX"], five characters whatever its length. *)
Theorem maskEmail_keeps_domain (v : str) :
  contains "@" v = true ->
  exists l m d,
    strip v = l ++ "@"%char :: d /\ contains "@" l = false /\
    maskEmail v = m ++ "@"%char :: d /\
    prefix 1 m = prefix 1 l /\
    (length l <= 2 -> length m = length l) /\
    (2 < length l -> m = prefix 2 l ++ py "XXX" /\ length m = 5).
Proof.
  intros H. destruct (no_at_split v H) as (l & d & E & Hl).
  exists l, (mlocal l), d.
  split; [exact E|]. split; [exact Hl|].
  split; [now apply maskEmail_parts|].
  rewrite mlocal_nat. unfold prefix.
  destruct l as [|a [|b [|c t]]]; cbn [length firstn app];
    (split; [reflexivity|]); split; intros Hlen; try lia;
    try reflexivity.
  split; reflexivity.
Qed.

Lemma maskEmail_keeps_domain_witness :
  exists l m d,
    strip (py "ravi.kumar@example.com") = l ++ "@"%char :: d /\
    contains "@" l = false /\
    maskEmail (py "ravi.kumar@example.com") = m ++ "@"%char :: d /\
    prefix 1 m = prefix 1 l /\
    (length l <= 2 -> length m = length l) /\
    (2 < length l -> m = prefix 2 l ++ py "XXX" /\ length m = 5).
Proof. apply (maskEmail_keeps_domain (py "ravi.kumar@example.com")). reflexivity. Defined.

(** ** Words of a name *)

Lemma tokens_any_start (b : bool) (s : str) :
  filter nonempty (re_split_from b s) = split_ws s.
Proof.
  unfold split_ws, re_split_ws.
  destruct s as [|c t]; [reflexivity|]. cbn [re_split_from].
  destruct (is_space c); [|reflexivity]. now destruct b.
Qed.

Lemma split_ws_lstrip (s : str) : split_ws (lstrip s) = split_ws s.
Proof.
  induction s as [|c t IH]; [reflexivity|]. cbn [lstrip].
  destruct (is_space c) eqn:E; [|reflexivity].
  rewrite IH. unfold split_ws at 2. unfold re_split_ws.
  cbn [re_split_from]. rewrite E. cbn [filter nonempty].
  now rewrite tokens_any_start.
Qed.

(** Whitespace at the end adds no word: the first piece is the same and
    the other pieces hold the same words. *)
Lemma re_split_trailing (b : bool) (s ws : str) :
  forallb is_space ws = true ->
  exists u rest rest',
    re_split_from b (s ++ ws) = u :: rest /\
    re_split_from b s = u :: rest' /\
    filter nonempty rest = filter nonempty rest'.
Proof.
  intros Hws. revert b. induction s as [|c t IH]; intros b.
  - cbn [app re_split_from]. exists [].
    assert (Hall : forall b', exists rest,
               re_split_from b' ws = [] :: rest /\
               filter nonempty rest = []).
    { clear b. induction ws as [|w ws' IHw]; intros b'.
      - exists []. now split.
      - cbn [forallb] in Hws. apply andb_true_iff in Hws.
        destruct Hws as [Hw Hws']. cbn [re_split_from]. rewrite Hw.
        destruct (IHw Hws' true) as (rest & E & F).
        destruct b'.
        + exists rest. now split.
        + exists ([] :: rest). rewrite E. split; [reflexivity|].
          cbn [filter nonempty]. exact F. }
    destruct (Hall b) as (rest & E & F).
    exists rest, []. now repeat split.
  - cbn [app re_split_from]. destruct (is_space c).
    + destruct (IH true) as (u & rest & rest' & E1 & E2 & F).
      destruct b.
      * exists u, rest, rest'. now repeat split.
      * exists [], (u :: rest), (u :: rest'). rewrite E1, E2.
        repeat split. cbn [filter]. now rewrite F.
    + destruct (IH false) as (u & rest & rest' & E1 & E2 & F).
      rewrite E1, E2. exists (c :: u), rest, rest'. now repeat split.
Qed.

Lemma split_ws_trailing (s ws : str) :
  forallb is_space ws = true -> split_ws (s ++ ws) = split_ws s.
Proof.
  intros Hws. unfold split_ws, re_split_ws.
  destruct (re_split_trailing false s ws Hws)
    as (u & rest & rest' & E1 & E2 & F).
  rewrite E1, E2. cbn [filter]. now rewrite F.
Qed.

Lemma lstrip_removes_spaces (s : str) :
  exists ws, s = ws ++ lstrip s /\ forallb is_space ws = true.
Proof.
  induction s as [|c t (ws & E & Hws)]; [now exists []|].
  cbn [lstrip]. destruct (is_space c) eqn:Ec.
  - exists (c :: ws). cbn [app forallb]. rewrite Ec, Hws.
    split; [now rewrite <- E | reflexivity].
  - now exists [].
Qed.

Lemma rstrip_removes_spaces (s : str) :
  exists ws, s = rstrip s ++ ws /\ forallb is_space ws = true.
Proof.
  destruct (lstrip_removes_spaces (rev s)) as (ws & E & Hws).
  exists (rev ws). split.
  - unfold rstrip. rewrite <- rev_app_distr, <- E. now rewrite rev_involutive.
  - apply forallb_forall. intros c Hc. apply in_rev in Hc.
    rewrite forallb_forall in Hws. now apply Hws.
Qed.

Lemma split_ws_rstrip (s : str) : split_ws (rstrip s) = split_ws s.
Proof.
  destruct (rstrip_removes_spaces s) as (ws & E & Hws).
  rewrite E at 2. now rewrite split_ws_trailing.
Qed.

Lemma split_ws_strip (s : str) : split_ws (strip s) = split_ws s.
Proof. unfold strip. now rewrite split_ws_rstrip, split_ws_lstrip. Qed.

Lemma split_ws_tokens (s : str) : Forall token (split_ws s).
Proof. apply tokens_are_tokens. Qed.

Lemma maskName_words (v : str) :
  split_ws (maskName v) = map mask_token (split_ws v).
Proof.
  unfold maskName. fold (split_ws (strip v)). rewrite split_ws_strip.
  pose proof (split_ws_tokens v) as Htok.
  destruct (split_ws v) as [|p rest] eqn:E; [cbn [map]; exact E|].
  set (ms := map mask_token (p :: rest)).
  assert (Hms : Forall token ms).
  { unfold ms. apply Forall_map.
    eapply Forall_impl; [|exact Htok]. apply mask_token_token. }
  change (split_ws (join (py " ") ms) = ms).
  unfold split_ws, re_split_ws.
  rewrite re_split_join by (assumption || (unfold ms; discriminate)).
  now apply filter_nonempty_tokens.
Qed.

(** X11. [maskName] keeps the words of a name in number and order: every
    word of the masked name is the first character of the corresponding
    word of the input followed by one [X] for each of its other
    characters. *)
Theorem maskName_keeps_words (v : str) :
  Forall2 (fun p q => exists c t,
             p = c :: t /\ q = c :: repeat "X"%char (length t))
          (split_ws v) (split_ws (maskName v)).
Proof.
  rewrite maskName_words.
  pose proof (split_ws_tokens v) as Htok.
  induction Htok as [|p rest [Hne _] _ IH]; cbn [map]; constructor;
    [|exact IH].
  destruct p as [|c t]; [congruence|].
  exists c, t. split; [reflexivity | apply mask_token_cons].
Qed.

(** X12. A masked name with at least one word is its masked words joined
    by single spaces, without whitespace around it; a value without a word
    is returned as it is. *)
Theorem maskName_joined (v : str) :
  (split_ws v <> [] ->
   maskName v = join (py " ") (split_ws (maskName v)) /\
   strip (maskName v) = maskName v) /\
  (split_ws v = [] -> maskName v = v).
Proof.
  split.
  - intros Hne. rewrite maskName_words.
    pose proof (split_ws_tokens v) as Htok.
    assert (E : maskName v = join (py " ") (map mask_token (split_ws v))).
    { unfold maskName. fold (split_ws (strip v)). rewrite split_ws_strip.
      destruct (split_ws v); [congruence | reflexivity]. }
    split; [exact E|]. rewrite E. apply strip_tight, join_tight.
    + destruct (split_ws v); [congruence | discriminate].
    + apply Forall_map. eapply Forall_impl; [|exact Htok].
      apply mask_token_token.
  - intros Hnone. unfold maskName. fold (split_ws (strip v)).
    now rewrite split_ws_strip, Hnone.
Qed.

Lemma maskName_joined_witness :
  maskName (py "  Ravi   Kumar ") = py "RXXX KXXXX" /\
  maskName (py "   ") = py "   ".
Proof.
  destruct (maskName_joined (py "  Ravi   Kumar ")) as [H1 _].
  destruct (maskName_joined (py "   ")) as [_ H2].
  split.
  - destruct H1 as [E _]; [discriminate|]. rewrite E. reflexivity.
  - apply H2. reflexivity.
Defined.

(** ** The classifiers and surrounding text *)

Lemma space_not_digit (c : ascii) : is_space c = true -> is_digit c = false.
Proof. intros H. char_classes. Qed.

Lemma alpha_not_digit (c : ascii) : is_alpha c = true -> is_digit c = false.
Proof. intros H. char_classes. Qed.

Lemma digits_of_spaces (ws : str) :
  forallb is_space ws = true -> digits_of ws = [].
Proof.
  induction ws as [|c t IH]; [reflexivity|]. cbn [forallb].
  intros H. apply andb_true_iff in H. destruct H as [Hc Ht].
  unfold digits_of in *. cbn [filter].
  now rewrite (space_not_digit c Hc), IH.
Qed.

Lemma digits_of_app (a b : str) :
  digits_of (a ++ b) = digits_of a ++ digits_of b.
Proof. apply filter_app. Qed.

Lemma digits_of_strip (s : str) : digits_of (strip s) = digits_of s.
Proof.
  unfold strip.
  destruct (lstrip_removes_spaces s) as (w1 & E1 & H1).
  destruct (rstrip_removes_spaces (lstrip s)) as (w2 & E2 & H2).
  rewrite E1 at 2. rewrite E2 at 2.
  rewrite !digits_of_app, (digits_of_spaces w1 H1), (digits_of_spaces w2 H2).
  now rewrite app_nil_r.
Qed.

Lemma digits_of_all_digits (ds : str) :
  forallb is_digit ds = true -> digits_of ds = ds.
Proof.
  induction ds as [|c t IH]; [reflexivity|]. cbn [forallb].
  intros H. apply andb_true_iff in H. destruct H as [Hc Ht].
  unfold digits_of in *. cbn [filter]. now rewrite Hc, IH.
Qed.

(** X13. A passport number is neither a ten-digit phone number nor a
    twelve-digit national ID, and no value is both of the latter. *)
Theorem classifiers_exclusive (v : str) :
  (isPassport v = true -> is10DigitPhone v = false /\ isAadhar v = false) /\
  (is10DigitPhone v = true -> isAadhar v = false).
Proof.
  split.
  - unfold isPassport, is10DigitPhone, isAadhar. cbv zeta.
    rewrite <- (digits_of_strip v).
    destruct (strip v) as [|c ds]; [discriminate|].
    cbn [fullmatch_passport]. intros H.
    apply andb_true_iff in H. destruct H as [H Hlen].
    apply andb_true_iff in H. destruct H as [Hc Hds].
    assert (E : digits_of (c :: ds) = ds).
    { unfold digits_of. cbn [filter]. rewrite (alpha_not_digit c Hc).
      now apply digits_of_all_digits. }
    rewrite E. unfold len.
    apply orb_true_iff in Hlen.
    destruct Hlen as [Hlen | Hlen]; apply Nat.eqb_eq in Hlen;
      rewrite Hlen; split; reflexivity.
  - unfold is10DigitPhone, isAadhar. cbv zeta. intros H.
    apply Z.eqb_eq in H. rewrite H. reflexivity.
Qed.

Lemma classifiers_exclusive_witness :
  (is10DigitPhone (py " P1234567 ") = false /\
   isAadhar (py " P1234567 ") = false) /\
  isAadhar (py "98765 43210") = false.
Proof.
  destruct (classifiers_exclusive (py " P1234567 ")) as [H1 _].
  destruct (classifiers_exclusive (py "98765 43210")) as [_ H2].
  split; [apply H1; reflexivity | apply H2; reflexivity].
Defined.

Lemma lstrip_spaces_app (ws s : str) :
  forallb is_space ws = true -> lstrip (ws ++ s) = lstrip s.
Proof.
  induction ws as [|c t IH]; [reflexivity|]. cbn [forallb app lstrip].
  intros H. apply andb_true_iff in H. destruct H as [Hc Ht].
  rewrite Hc. now apply IH.
Qed.

Lemma forallb_rev {A} (f : A -> bool) (l : list A) :
  forallb f (rev l) = forallb f l.
Proof.
  induction l as [|a l IH]; [reflexivity|]. cbn [rev forallb].
  rewrite forallb_app, IH. cbn [forallb]. rewrite andb_true_r.
  apply andb_comm.
Qed.

Lemma rstrip_app_spaces (s ws : str) :
  forallb is_space ws = true -> rstrip (s ++ ws) = rstrip s.
Proof.
  intros H. unfold rstrip. rewrite rev_app_distr.
  rewrite lstrip_spaces_app; [reflexivity | now rewrite forallb_rev].
Qed.

Lemma strip_padding (ws1 ws2 v : str) :
  forallb is_space ws1 = true -> forallb is_space ws2 = true ->
  strip (ws1 ++ v ++ ws2) = strip v.
Proof.
  intros H1 H2. unfold strip. rewrite lstrip_spaces_app by assumption.
  destruct (lstrip_removes_spaces v) as (w & E & Hw).
  destruct (lstrip v) as [|c t] eqn:El.
  - rewrite app_nil_r in E. subst w.
    replace (v ++ ws2) with ((v ++ ws2) ++ []) by apply app_nil_r.
    rewrite lstrip_spaces_app; [reflexivity|].
    rewrite forallb_app. now rewrite Hw, H2.
  - pose proof (lstrip_head _ _ _ El) as Hc.
    rewrite E at 1. rewrite <- app_assoc. cbn [app].
    rewrite lstrip_app_nonspace by assumption.
    replace (lstrip w) with (@nil ascii).
    + cbn [app]. change (c :: t ++ ws2) with ((c :: t) ++ ws2).
      now apply rstrip_app_spaces.
    + symmetry. rewrite <- (app_nil_r w) at 1.
      now apply lstrip_spaces_app.
Qed.

(** X14. Whitespace before and after a value changes nothing for the
    classifiers, nor for the maskers that strip their argument. *)
Theorem padding_is_ignored (ws1 ws2 v : str) :
  forallb is_space ws1 = true -> forallb is_space ws2 = true ->
  let padded := ws1 ++ v ++ ws2 in
  is10DigitPhone padded = is10DigitPhone v /\
  isAadhar padded = isAadhar v /\
  isPassport padded = isPassport v /\
  isUpi padded = isUpi v /\
  maskPhone padded = maskPhone v /\
  maskAadhar padded = maskAadhar v /\
  maskPassport padded = maskPassport v /\
  maskUpi padded = maskUpi v /\
  maskEmail padded = maskEmail v.
Proof.
  intros H1 H2 padded.
  assert (Ed : digits_of padded = digits_of v).
  { unfold padded. rewrite !digits_of_app.
    rewrite (digits_of_spaces ws1 H1), (digits_of_spaces ws2 H2).
    now rewrite app_nil_r. }
  assert (Es : strip padded = strip v) by now apply strip_padding.
  unfold is10DigitPhone, isAadhar, isPassport, isUpi, maskPhone,
    maskAadhar, maskPassport, maskUpi, maskEmail.
  cbv zeta. rewrite Ed, Es. repeat split; reflexivity.
Qed.

Lemma padding_is_ignored_witness :
  isUpi (py "  someone@upi ") = isUpi (py "someone@upi") /\
  maskPassport (py "  P1234567 ") = maskPassport (py "P1234567").
Proof.
  destruct (padding_is_ignored (py "  ") (py " ") (py "someone@upi"))
    as (_ & _ & _ & H4 & _); [reflexivity | reflexivity|].
  destruct (padding_is_ignored (py "  ") (py " ") (py "P1234567"))
    as (_ & _ & _ & _ & _ & _ & H7 & _); [reflexivity | reflexivity|].
  split; [exact H4 | exact H7].
Defined.

(** X15. The address heuristic does not look at letter case: two texts
    with the same lower-cased form get the same answer. *)
Theorem looksLikeAddress_case_insensitive (a b : str) :
  lower a = lower b -> looksLikeAddress_str a = looksLikeAddress_str b.
Proof.
  intros H. unfold looksLikeAddress_str. rewrite H.
  assert (En : nonempty a = nonempty b).
  { destruct a, b; try reflexivity; discriminate H. }
  now rewrite En.
Qed.

Lemma looksLikeAddress_case_insensitive_witness :
  looksLikeAddress_str (py "12 MG ROAD") = looksLikeAddress_str (py "12 mg road").
Proof.
  apply (looksLikeAddress_case_insensitive (py "12 MG ROAD") (py "12 mg road")).
  reflexivity.
Defined.

(** ** When the record classifier raises, and what it flags *)

(** X16. [detectAndRedact] raises exactly when at least two signals are
    active and the record holds under ["address"] a value that is truthy
    and not a string. *)
Theorem detectAndRedact_raises_iff (r : dict) :
  detectAndRedact r = AttributeError <->
  combo_triggered r = true /\
  exists a, dict_get (py "address") r = Some a /\ truthy a = true /\
            forall s, a <> JStr s.
Proof.
  unfold detectAndRedact. rewrite combo_triggered_scan.
  set (st := fold_left scan_field r (scan_init r)).
  destruct (combo_triggered r).
  - unfold redact_combo, redact_address.
    set (red := redact_email r (redact_name r (redacted st))).
    destruct (dict_get (py "address") r) as [a|].
    + unfold looksLikeAddress.
      destruct (truthy a) eqn:Ta; cbn [negb].
      * destruct a; cbn [bind]; split;
          try (intros _; split; [reflexivity|]; eexists; split;
               [reflexivity|]; split; [assumption | intros s0; discriminate]);
          try reflexivity; try discriminate.
        intros (_ & a & [= <-] & _ & Hs). now elim (Hs s).
      * cbn [bind]. split; [discriminate|].
        intros (_ & a' & [= <-] & Ta' & _). congruence.
    + cbn [bind]. split; [discriminate|].
      intros (_ & a & Ha & _). discriminate.
  - cbn [bind]. split; [discriminate|]. intros [H _]. discriminate.
Qed.

Lemma detectAndRedact_raises_iff_witness :
  detectAndRedact
    [(py "name", JStr (py "Ravi Kumar"));
     (py "address", JList [JStr (py "12 MG Road")])] = AttributeError.
Proof.
  apply (detectAndRedact_raises_iff
    [(py "name", JStr (py "Ravi Kumar"));
     (py "address", JList [JStr (py "12 MG Road")])]).
  split; [reflexivity|].
  exists (JList [JStr (py "12 MG Road")]).
  split; [reflexivity|]. split; [reflexivity | intros s; discriminate].
Defined.

(** X17. On a record whose values are all strings or [None],
    [detectAndRedact] returns. *)
Theorem detectAndRedact_returns_on_strings (r : dict) :
  (forall k v, In (k, v) r -> v = JNull \/ exists s, v = JStr s) ->
  exists red pii, detectAndRedact r = Ok (red, pii).
Proof.
  intros Hall. apply detectAndRedact_returns. unfold bad_address.
  destruct (dict_get (py "address") r) as [a|] eqn:E; [|reflexivity].
  apply dict_get_In in E.
  destruct (Hall _ _ E) as [-> | [s ->]]; [reflexivity|].
  unfold looksLikeAddress. now destruct (negb (truthy (JStr s))).
Qed.

Lemma detectAndRedact_returns_on_strings_witness :
  exists red pii,
    detectAndRedact
      [(py "name", JStr (py "Ravi Kumar")); (py "address", JNull)] =
    Ok (red, pii).
Proof.
  apply (detectAndRedact_returns_on_strings
    [(py "name", JStr (py "Ravi Kumar")); (py "address", JNull)]).
  intros k v Hin. simpl in Hin.
  destruct Hin as [E | [E | []]]; injection E as <- <-;
    [right; eexists; reflexivity | left; reflexivity].
Defined.

Lemma is_hit_match (kv : str * json) :
  is_hit kv = standalone_match (lower (fst kv)) (to_text (snd kv)).
Proof.
  unfold is_hit.
  destruct (standalone_mask (lower (fst kv)) (to_text (snd kv))) eqn:E.
  - destruct (standalone_match _ _) eqn:M; [reflexivity|].
    apply standalone_mask_match in M. congruence.
  - apply standalone_mask_match in E. now rewrite E.
Qed.

Lemma detectAndRedact_flag (r red : dict) (pii : bool) :
  detectAndRedact r = Ok (red, pii) ->
  pii = existsb is_hit r || combo_triggered r.
Proof.
  unfold detectAndRedact. rewrite combo_triggered_scan.
  destruct (scan_fold_flags r (scan_init r)) as (_ & _ & _ & _ & F5).
  cbv zeta in F5. rewrite F5. cbn [standaloneHit scan_init orb].
  destruct (combo_triggered r).
  - destruct (redact_combo _ _); cbn [bind]; [|discriminate].
    now intros [= _ <-].
  - cbn [bind]. now intros [= _ <-].
Qed.

(** X18. The flag returned by [detectAndRedact] is [True] exactly when
    some field under a standalone alias passes the classifier of its role,
    or at least two signals are active. *)
Theorem detectAndRedact_flag_iff (r red : dict) (pii : bool) :
  detectAndRedact r = Ok (red, pii) ->
  (pii = true <->
   (exists key value,
      In (key, value) r /\
      standalone_match (lower key) (to_text value) = true) \/
   combo_triggered r = true).
Proof.
  intros H. apply detectAndRedact_flag in H. subst pii.
  rewrite orb_true_iff, existsb_exists. split.
  - intros [([key value] & Hin & Hhit) | Hc]; [left | now right].
    exists key, value. split; [assumption|].
    now rewrite is_hit_match in Hhit.
  - intros [(key & value & Hin & Hm) | Hc]; [left | now right].
    exists (key, value). split; [assumption|]. now rewrite is_hit_match.
Qed.

Lemma detectAndRedact_flag_iff_witness :
  true = true <->
  (exists key value,
     In (key, value) [(py "Mobile", JStr (py "98765 43210"))] /\
     standalone_match (lower key) (to_text value) = true) \/
  combo_triggered [(py "Mobile", JStr (py "98765 43210"))] = true.
Proof.
  apply (detectAndRedact_flag_iff
    [(py "Mobile", JStr (py "98765 43210"))]
    [(py "Mobile", JStr (py "98XXXXXX10"))] true).
  vm_compute. reflexivity.
Defined.

Lemma existsb_Forall2 {A} (f : A -> bool) (R : A -> A -> Prop)
    (l l' : list A) :
  (forall a a', R a a' -> f a = f a') ->
  Forall2 R l l' -> existsb f l = existsb f l'.
Proof.
  intros Hf. induction 1 as [|a a' l l' Ha _ IH]; [reflexivity|].
  cbn [existsb]. now rewrite (Hf _ _ Ha), IH.
Qed.

(** X19. The flag does not depend on the letter case of the keys: two
    records with the same values under keys that agree once lower-cased,
    on both of which [detectAndRedact] returns, get the same flag. *)
Theorem flag_ignores_key_case (r r' red red' : dict) (pii pii' : bool) :
  Forall2 (fun kv kv' => lower (fst kv) = lower (fst kv') /\
                         snd kv = snd kv') r r' ->
  detectAndRedact r = Ok (red, pii) ->
  detectAndRedact r' = Ok (red', pii') ->
  pii = pii'.
Proof.
  intros Hrel H H'.
  apply detectAndRedact_flag in H. apply detectAndRedact_flag in H'.
  subst pii pii'. unfold combo_triggered.
  assert (Hsame : forall f : str * json -> bool,
            (forall a a', lower (fst a) = lower (fst a') /\ snd a = snd a' ->
                          f a = f a') ->
            existsb f r = existsb f r').
  { intros f Hf. exact (existsb_Forall2 f _ r r' Hf Hrel). }
  rewrite (Hsame is_hit)
    by (intros a a' [E1 E2]; unfold is_hit; now rewrite E1, E2).
  rewrite (Hsame sig_name)
    by (intros a a' [E1 E2]; unfold sig_name; now rewrite E1, E2).
  rewrite (Hsame sig_email)
    by (intros a a' [E1 E2]; unfold sig_email; now rewrite E1, E2).
  rewrite (Hsame sig_address)
    by (intros a a' [E1 E2]; unfold sig_address; now rewrite E1, E2).
  rewrite (Hsame sig_device)
    by (intros a a' [E1 E2]; unfold sig_device; now rewrite E1, E2).
  reflexivity.
Qed.

Lemma flag_ignores_key_case_witness :
  detectAndRedact
    [(py "Name", JStr (py "Ravi Kumar")); (py "EMAIL", JStr (py "r@x.in"))] =
  Ok ([(py "Name", JStr (py "Ravi Kumar"));
       (py "EMAIL", JStr (py "r@x.in"))], true) /\
  detectAndRedact
    [(py "name", JStr (py "Ravi Kumar")); (py "email", JStr (py "r@x.in"))] =
  Ok ([(py "name", JStr (py "RXXX KXXXX"));
       (py "email", JStr (py "r@x.in"))], true) /\
  true = true.
Proof.
  assert (H1 : detectAndRedact
    [(py "Name", JStr (py "Ravi Kumar")); (py "EMAIL", JStr (py "r@x.in"))] =
    Ok ([(py "Name", JStr (py "Ravi Kumar"));
         (py "EMAIL", JStr (py "r@x.in"))], true))
    by (vm_compute; reflexivity).
  assert (H2 : detectAndRedact
    [(py "name", JStr (py "Ravi Kumar")); (py "email", JStr (py "r@x.in"))] =
    Ok ([(py "name", JStr (py "RXXX KXXXX"));
         (py "email", JStr (py "r@x.in"))], true))
    by (vm_compute; reflexivity).
  split; [exact H1|]. split; [exact H2|].
  refine (flag_ignores_key_case _ _ _ _ _ _ _ H1 H2).
  repeat constructor.
Defined.

(** ** What each field becomes *)

Lemma redacted_field (r red : dict) (pii : bool) (key : str) (value : json) :
  NoDup (keys r) -> In (key, value) r ->
  detectAndRedact r = Ok (red, pii) ->
  dict_get key red = Some (snd (redact_item (combo_triggered r) (key, value))).
Proof.
  intros Hnd Hin Hrun.
  rewrite detectAndRedact_fieldwise in Hrun by assumption.
  destruct (combo_triggered r && bad_address r); [discriminate|].
  injection Hrun as <- _.
  rewrite dict_get_map by apply fst_redact_item.
  now rewrite (NoDup_dict_get key value r Hnd Hin).
Qed.

(** X20. A field whose key has no standalone role, lower-cased, and is
    none of ["name"], ["email"], ["address"], ["ip_address"] and
    ["device_id"] as written, keeps its value. *)
Theorem other_fields_pass_through
    (r red : dict) (pii : bool) (key : str) (value : json) :
  NoDup (keys r) -> In (key, value) r ->
  standalone_alias (lower key) = false ->
  ~ In key [py "name"; py "email"; py "address"; py "ip_address";
            py "device_id"] ->
  detectAndRedact r = Ok (red, pii) ->
  dict_get key red = Some value.
Proof.
  intros Hnd Hin Halias Hkey Hrun.
  rewrite (redacted_field r red pii key value Hnd Hin Hrun). f_equal.
  unfold redact_item. cbn [fst snd].
  destruct (standalone_mask (lower key) (to_text value)) as [m|] eqn:E.
  { apply standalone_mask_alias in E. congruence. }
  destruct (combo_mask (key, value)) as [m|] eqn:C.
  { apply combo_mask_key in C. contradiction. }
  now destruct (combo_triggered r).
Qed.

Lemma other_fields_pass_through_witness :
  dict_get (py "Address")
    [(py "name", JStr (py "RXXX KXXXX"));
     (py "email", JStr (py "raXXX@example.com"));
     (py "Address", JStr (py "12 MG Road"))] =
  Some (JStr (py "12 MG Road")).
Proof.
  apply (other_fields_pass_through
    [(py "name", JStr (py "Ravi Kumar"));
     (py "email", JStr (py "ravi@example.com"));
     (py "Address", JStr (py "12 MG Road"))]
    [(py "name", JStr (py "RXXX KXXXX"));
     (py "email", JStr (py "raXXX@example.com"));
     (py "Address", JStr (py "12 MG Road"))] true).
  - repeat constructor; simpl; intros H;
      repeat (destruct H as [H | H]; [discriminate H|]); exact H.
  - simpl. right. right. left. reflexivity.
  - reflexivity.
  - simpl. intros H.
    repeat (destruct H as [H | H]; [discriminate H|]). exact H.
  - vm_compute. reflexivity.
Defined.




(** X22. With fewer than two active signals, every field that is no
    standalone hit keeps its value: a lone name, e-mail address, address
    or device identifier is never masked. *)
Theorem below_threshold_unchanged
    (r red : dict) (pii : bool) (key : str) (value : json) :
  NoDup (keys r) -> In (key, value) r ->
  combo_triggered r = false ->
  standalone_match (lower key) (to_text value) = false ->
  detectAndRedact r = Ok (red, pii) ->
  dict_get key red = Some value.
Proof.
  intros Hnd Hin Hc Hm Hrun.
  rewrite (redacted_field r red pii key value Hnd Hin Hrun). f_equal.
  unfold redact_item. cbn [fst snd].
  apply standalone_mask_match in Hm. now rewrite Hm, Hc.
Qed.

Lemma below_threshold_unchanged_witness :
  dict_get (py "name")
    [(py "name", JStr (py "Ravi Kumar")); (py "phone", JStr (py "98XXXXXX10"))] =
  Some (JStr (py "Ravi Kumar")).
Proof.
  apply (below_threshold_unchanged
    [(py "name", JStr (py "Ravi Kumar")); (py "phone", JStr (py "9876543210"))]
    [(py "name", JStr (py "Ravi Kumar")); (py "phone", JStr (py "98XXXXXX10"))]
    true).
  - repeat constructor; simpl; intros H;
      repeat (destruct H as [H | H]; [discriminate H|]); exact H.
  - simpl. left. reflexivity.
  - reflexivity.
  - reflexivity.
  - vm_compute. reflexivity.
Defined.

(** X23. With at least two active signals, a ["name"] with two or more
    words is replaced by its masked name, an ["email"] with an ["@"] by
    its masked address, and an ["address"] that looks like one by the
    sentinel. *)
Theorem triggered_fields_are_masked (r red : dict) (pii : bool) (s : str) :
  NoDup (keys r) ->
  combo_triggered r = true ->
  detectAndRedact r = Ok (red, pii) ->
  (dict_get (py "name") r = Some (JStr s) -> 2 <= length (split_ws s) ->
   dict_get (py "name") red = Some (JStr (maskName s))) /\
  (dict_get (py "email") r = Some (JStr s) -> contains "@" s = true ->
   dict_get (py "email") red = Some (JStr (maskEmail s))) /\
  (dict_get (py "address") r = Some (JStr s) ->
   looksLikeAddress_str s = true ->
   dict_get (py "address") red = Some (JStr REDACTED)).
Proof.
  intros Hnd Hc Hrun.
  assert (Hfield : forall key,
            In key [py "name"; py "email"; py "address"] ->
            dict_get key r = Some (JStr s) ->
            dict_get key red =
            Some (match combo_mask (key, JStr s) with
                  | Some m => JStr m
                  | None => JStr s
                  end)).
  { intros key Hkey Hget. apply dict_get_In in Hget.
    rewrite (redacted_field r red pii key (JStr s) Hnd Hget Hrun).
    unfold redact_item. cbn [fst snd].
    rewrite combo_key_no_mask by (simpl in *; tauto).
    rewrite Hc. now destruct (combo_mask (key, JStr s)). }
  split; [|split].
  - intros Hget Hlen. rewrite (Hfield _ (or_introl eq_refl) Hget).
    apply Nat.leb_le in Hlen.
    change (combo_mask (py "name", JStr s)) with (name_mask (JStr s)).
    unfold name_mask. now rewrite Hlen.
  - intros Hget Hat.
    rewrite (Hfield _ (or_intror (or_introl eq_refl)) Hget).
    change (combo_mask (py "email", JStr s)) with (email_mask (JStr s)).
    unfold email_mask. now rewrite Hat.
  - intros Hget Hlooks.
    rewrite (Hfield _ (or_intror (or_intror (or_introl eq_refl))) Hget).
    change (combo_mask (py "address", JStr s)) with (address_mask (JStr s)).
    unfold address_mask, looksLikeAddress. cbn [truthy].
    destruct s as [|c t]; [discriminate Hlooks|]. cbn [nonempty negb].
    now rewrite Hlooks.
Qed.

Lemma triggered_fields_are_masked_witness :
  dict_get (py "address")
    [(py "address", JStr (py "[REDACTED_PII]"));
     (py "device_id", JStr (py "[REDACTED_PII]"))] =
  Some (JStr REDACTED).
Proof.
  destruct (triggered_fields_are_masked
    [(py "address", JStr (py "12 MG Road, Bengaluru"));
     (py "device_id", JStr (py "abc-123"))]
    [(py "address", JStr (py "[REDACTED_PII]"));
     (py "device_id", JStr (py "[REDACTED_PII]"))] true
    (py "12 MG Road, Bengaluru")) as (_ & _ & H).
  - repeat constructor; simpl; intros H;
      repeat (destruct H as [H | H]; [discriminate H|]); exact H.
  - reflexivity.
  - vm_compute. reflexivity.
  - apply H; reflexivity.
Defined.

(** ** The order of the fields *)

Lemma existsb_perm {A} (f : A -> bool) (l l' : list A) :
  Permutation l l' -> existsb f l = existsb f l'.
Proof.
  induction 1 as [|a l l' _ IH|a b l|l l' l'' _ IH1 _ IH2]; cbn [existsb].
  - reflexivity.
  - now rewrite IH.
  - now rewrite !orb_assoc, (orb_comm (f b)).
  - now rewrite IH1.
Qed.

Lemma dict_get_perm (k : str) (d d' : dict) :
  NoDup (keys d) -> Permutation d d' -> dict_get k d' = dict_get k d.
Proof.
  intros Hnd Hp.
  assert (Hnd' : NoDup (keys d')).
  { eapply Permutation_NoDup; [|exact Hnd]. now apply Permutation_map. }
  destruct (dict_get k d) as [x|] eqn:E.
  - apply dict_get_In in E. apply NoDup_dict_get; [assumption|].
    eapply Permutation_in; eauto.
  - destruct (dict_get k d') as [y|] eqn:E'; [|reflexivity].
    apply dict_get_In in E'.
    apply (Permutation_in _ (Permutation_sym Hp)) in E'.
    rewrite (NoDup_dict_get k y d Hnd E') in E. discriminate.
Qed.

(** X24. The order of the fields of a record does not matter: on a
    reordered record [detectAndRedact] returns the same flag and the same
    value for every key, in the new order. *)
Theorem field_order_is_irrelevant (r r' red : dict) (pii : bool) :
  NoDup (keys r) -> Permutation r r' ->
  detectAndRedact r = Ok (red, pii) ->
  exists red',
    detectAndRedact r' = Ok (red', pii) /\
    Permutation red red' /\ keys red' = keys r' /\
    forall key, dict_get key red' = dict_get key red.
Proof.
  intros Hnd Hp Hrun.
  assert (Hnd' : NoDup (keys r')).
  { eapply Permutation_NoDup; [|exact Hnd]. now apply Permutation_map. }
  assert (Hc : combo_triggered r' = combo_triggered r).
  { unfold combo_triggered.
    now rewrite !(existsb_perm _ r r' Hp). }
  assert (Hb : bad_address r' = bad_address r).
  { unfold bad_address. now rewrite (dict_get_perm _ r r' Hnd Hp). }
  rewrite detectAndRedact_fieldwise in Hrun by assumption.
  rewrite detectAndRedact_fieldwise by assumption.
  rewrite Hc, Hb, <- (existsb_perm is_hit r r' Hp).
  destruct (combo_triggered r && bad_address r); [discriminate|].
  injection Hrun as <- <-.
  eexists. split; [reflexivity|].
  split; [now apply Permutation_map|].
  split; [apply keys_map_fst, fst_redact_item|].
  intros key. apply dict_get_perm.
  - now rewrite keys_map_fst by apply fst_redact_item.
  - now apply Permutation_map.
Qed.

Lemma field_order_is_irrelevant_witness :
  exists red',
    detectAndRedact
      [(py "email", JStr (py "ravi@example.com"));
       (py "name", JStr (py "Ravi Kumar"))] = Ok (red', true) /\
    Permutation
      [(py "name", JStr (py "RXXX KXXXX"));
       (py "email", JStr (py "raXXX@example.com"))] red' /\
    keys red' =
    keys [(py "email", JStr (py "ravi@example.com"));
          (py "name", JStr (py "Ravi Kumar"))] /\
    forall key,
      dict_get key red' =
      dict_get key [(py "name", JStr (py "RXXX KXXXX"));
                    (py "email", JStr (py "raXXX@example.com"))].
Proof.
  apply (field_order_is_irrelevant
    [(py "name", JStr (py "Ravi Kumar"));
     (py "email", JStr (py "ravi@example.com"))]).
  - repeat constructor; simpl; intros H;
      repeat (destruct H as [H | H]; [discriminate H|]); exact H.
  - apply perm_swap.
  - vm_compute. reflexivity.
Defined.

(** ** Values that are not strings *)

Lemma dumps_int_not_placeholder (n : Z) :
  nonempty (dumps_int n) = true /\ dumps_int n <> py "0.0.0.0".
Proof.
  unfold dumps_int.
  destruct (Z.to_int n) as [u | u]; cbn [NilZero.string_of_int].
  - destruct u as [|u|u|u|u|u|u|u|u|u|u];
      cbn [NilZero.string_of_uint NilEmpty.string_of_uint py
           list_ascii_of_string nonempty];
      (split; [reflexivity|]); try discriminate.
    destruct u as [|u|u|u|u|u|u|u|u|u|u];
      cbn [NilEmpty.string_of_uint list_ascii_of_string]; discriminate.
  - split; [reflexivity | discriminate].
Qed.

Lemma to_text_not_placeholder (value : json) :
  value <> JNull -> (forall s, value <> JStr s) ->
  nonempty (to_text value) = true /\ to_text value <> py "0.0.0.0".
Proof.
  intros Hnull Hstr.
  destruct value as [|b|n|s|items|fields]; cbn [to_text].
  - congruence.
  - destruct b; split; (reflexivity || discriminate).
  - apply dumps_int_not_placeholder.
  - now elim (Hstr s).
  - split; [reflexivity | discriminate].
  - split; [reflexivity | discriminate].
Qed.

(** X25. Under ["ip_address"] or ["device_id"], in any letter case, every
    value that is neither [None] nor a string sets the device signal in
    the loop, [0], [False] and empty containers included: its serialised
    text is never empty and never the placeholder. *)
Theorem non_string_device_sets_signal
    (st : scan) (key : str) (value : json) :
  in_set (lower key) [py "ip_address"; py "device_id"] = true ->
  value <> JNull -> (forall s, value <> JStr s) ->
  hasDeviceOrIp (scan_field st (key, value)) = true.
Proof.
  intros Hkey Hnull Hstr.
  destruct (to_text_not_placeholder value Hnull Hstr) as [Hne Hph].
  rewrite scan_field_cases. cbn [fst snd].
  destruct (standalone_mask (lower key) (to_text value)) as [m|] eqn:E.
  { apply standalone_mask_alias, alias_not_combo in E.
    destruct E as (_ & _ & _ & E). congruence. }
  cbn [hasDeviceOrIp]. unfold sig_device. cbn [fst snd].
  rewrite Hkey, Hne. apply str_eqb_neq in Hph. now rewrite Hph.
Qed.

Lemma non_string_device_sets_signal_witness :
  hasDeviceOrIp (scan_field (scan_init []) (py "Device_ID", JInt 0)) = true.
Proof.
  apply (non_string_device_sets_signal (scan_init []) (py "Device_ID")
           (JInt 0)).
  - reflexivity.
  - discriminate.
  - intros s. discriminate.
Defined.

(** ** The record adapter *)

Lemma replace_char_absent (a b : ascii) (s : str) :
  contains a s = false -> replace_char a b s = s.
Proof.
  unfold replace_char, contains.
  induction s as [|c t IH]; [reflexivity|]. cbn [existsb map].
  intros H. apply orb_false_iff in H. destruct H as [Hc Ht].
  rewrite Ascii.eqb_sym, Hc. now rewrite IH.
Qed.

(** X26. [loadJsonSafe] gives what the parser gives when the text parses;
    a text that does not parse and holds no single quote gives the empty
    dict, the second attempt being made on the same text. *)
Theorem loadJsonSafe_fallback
    (json_loads : str -> option json) (raw : str) :
  (forall parsed, json_loads raw = Some parsed ->
                  loadJsonSafe json_loads raw = parsed) /\
  (json_loads raw = None -> contains "'" raw = false ->
   loadJsonSafe json_loads raw = JDict []).
Proof.
  unfold loadJsonSafe. split.
  - intros parsed H. now rewrite H.
  - intros H Hq. rewrite H. cbv zeta.
    now rewrite (replace_char_absent _ _ raw Hq), H.
Qed.

Lemma loadJsonSafe_fallback_witness :
  loadJsonSafe (fun _ => None) (py "{a: 1,}") = JDict [].
Proof.
  destruct (loadJsonSafe_fallback (fun _ => None) (py "{a: 1,}")) as [_ H].
  apply H; reflexivity.
Defined.

(** X27. A row whose text does not parse and holds no single quote, or
    parses to a value that is no object, is classified as the empty record
    with the flag [False]; the classifier does not raise on it. *)
Theorem classify_row_without_dict
    (json_loads : str -> option json) (rawJson : str) :
  (json_loads rawJson = None /\ contains "'" rawJson = false) \/
  (exists parsed, json_loads rawJson = Some parsed /\
                  forall d, parsed <> JDict d) ->
  classify_row json_loads rawJson = Ok ([], false).
Proof.
  unfold classify_row, loadJsonSafe. cbv zeta.
  intros [[H Hq] | (parsed & H & Hd)]; rewrite H.
  - now rewrite (replace_char_absent _ _ rawJson Hq), H.
  - destruct parsed as [| | | | |d]; try reflexivity. now elim (Hd d).
Qed.

Lemma classify_row_without_dict_witness :
  classify_row (fun _ => Some (JList [JInt 1])) (py "[1]") = Ok ([], false) /\
  classify_row (fun _ => None) (py "{a: 1,}") = Ok ([], false).
Proof.
  split.
  - apply (classify_row_without_dict (fun _ => Some (JList [JInt 1]))
             (py "[1]")).
    right. exists (JList [JInt 1]). split; [reflexivity|].
    intros d. discriminate.
  - apply (classify_row_without_dict (fun _ => None) (py "{a: 1,}")).
    left. split; reflexivity.
Defined.
